(** * RESUMAX: section selection, key normalisation, API wrapper and the
    block assembler

    A shallow embedding of the parts of the RESUMAX front end that decide
    which resume sections and items are kept
    ([frontend/src/pages/SectionSelectorPage.tsx]), of the HTTP wrapper
    they go through (the API utility functions of [frontend/src/utils]), and of the "lego
    blocks" assembler and brace validator that the back end runs on the
    selections.

    Layout: host primitives and the section key; the data model of the
    selector page; the page's handlers; the API wrapper; the assembler and
    validator; what the page renders, the preview pipeline, the
    configuration and upload calls, the preloader and the editor page;
    then the lemmas and the theorems about them. *)

From Stdlib Require Import Ascii ZArith.
From Stdlib Require String.
From Equations Require Import Equations.
From stdpp Require Import base gmap strings list pretty sorting.

Local Open Scope Z_scope.

(* ===================================================================== *)
(** * Host primitives *)
(* ===================================================================== *)

(** [String.prototype.toLowerCase] is a builtin of the JavaScript engine,
    not code of the repository; the development is parametric in it. *)
Class HostString := { toLowerCase : string → string }.

(** An instance for ASCII text, used to run the definitions on examples:
    [A]-[Z] go to [a]-[z], every other character is left alone. *)
Definition ascii_lower (c : ascii) : ascii :=
  let n := nat_of_ascii c in
  if ((65 <=? n) && (n <=? 90))%nat then ascii_of_nat (n + 32) else c.

Fixpoint string_lower (s : string) : string :=
  match s with
  | EmptyString => EmptyString
  | String c r => String (ascii_lower c) (string_lower r)
  end.

Definition ascii_host : HostString := {| toLowerCase := string_lower |}.

(* ===================================================================== *)
(** * The section key *)
(* ===================================================================== *)

Module Key.

(** The character class [[a-z0-9]] of the two regular expressions. *)
Definition in_az09 (c : ascii) : bool :=
  let n := nat_of_ascii c in
  (((97 <=? n) && (n <=? 122)) || ((48 <=? n) && (n <=? 57)))%nat.

(** [[^a-z0-9]]. *)
Definition not_az09 (c : ascii) : bool := negb (in_az09 c).

Definition underscore : ascii := "_"%char.

Definition is_underscore (c : ascii) : bool :=
  if decide (c = underscore) then true else false.

(** What is left of the input once a greedy [cls+] has consumed the
    longest run of [cls] characters in front of it. *)
Fixpoint skip_run (cls : ascii → bool) (l : list ascii) : list ascii :=
  match l with
  | c :: r => if cls c then skip_run cls r else l
  | [] => []
  end.

(** [s.replace(/cls+/g, by)]: scanning from the left, a character that is
    not in the class is copied; at a character of the class the greedy
    match takes the whole run, the replacement is written once, and the
    scan goes on behind the match. *)
Equations? replace_runs (cls : ascii → bool) (by_ : list ascii)
    (l : list ascii) : list ascii by wf (length l) lt :=
replace_runs cls by_ [] := [];
replace_runs cls by_ (c :: r) :=
  if cls c then by_ ++ replace_runs cls by_ (skip_run cls r)
  else c :: replace_runs cls by_ r.
Proof.
  all: clear replace_runs; simpl.
  - induction r as [|d r IH]; simpl; [lia|].
    destruct (cls d); simpl; lia.
  - lia.
Qed.

(** The last character of a list is dropped when it is an underscore. *)
Fixpoint strip_last_underscore (l : list ascii) : list ascii :=
  match l with
  | [] => []
  | [c] => if is_underscore c then [] else [c]
  | c :: r => c :: strip_last_underscore r
  end.

(** [s.replace(/^_|_$/g, '')]: the first alternative can only match at
    index 0 and removes an underscore there; the second removes an
    underscore that is the last character, unless the first alternative
    has consumed that very character. *)
Definition strip_edge_underscores (l : list ascii) : list ascii :=
  let after_head :=
    match l with
    | c :: r => if is_underscore c then r else l
    | [] => []
    end in
  strip_last_underscore after_head.

Section WithHost.
Context `{HostString}.

(** [SectionSelectorPage.tsx], lines 73, 749 and 753:
    [s.title.toLowerCase().replace(/[^a-z0-9]+/g, '_').replace(/^_|_$/g, '')]. *)
Definition normalizedTitle (title : string) : string :=
  String.string_of_list_ascii
    (strip_edge_underscores
       (replace_runs not_az09 [underscore]
          (String.list_ascii_of_string (toLowerCase title)))).
End WithHost.

(** ** The key as the specification words it *)

(** The maximal runs of a text, each tagged with whether its characters
    lie outside [[a-z0-9]]. *)
Fixpoint runs (l : list ascii) : list (bool * list ascii) :=
  match l with
  | [] => []
  | c :: r =>
      match runs r with
      | (b, run) :: rs =>
          if Bool.eqb b (not_az09 c) then (b, c :: run) :: rs
          else (not_az09 c, [c]) :: (b, run) :: rs
      | [] => [(not_az09 c, [c])]
      end
  end.

(** "non-alphanumeric runs collapsed to [_]". *)
Definition collapse_runs (l : list ascii) : list ascii :=
  concat (map (λ br : bool * list ascii, if br.1 then [underscore] else br.2)
              (runs l)).

Fixpoint drop_leading_underscores (l : list ascii) : list ascii :=
  match l with
  | c :: r => if is_underscore c then drop_leading_underscores r else l
  | [] => []
  end.

(** "trimmed": no underscore is left at either end. *)
Definition trim_underscores (l : list ascii) : list ascii :=
  rev (drop_leading_underscores (rev (drop_leading_underscores l))).

Section WithHost.
Context `{HostString}.

(** [key = lowercase(title)], non-alphanumeric runs collapsed to [_],
    trimmed. *)
Definition spec_key (title : string) : string :=
  String.string_of_list_ascii
    (trim_underscores
       (collapse_runs (String.list_ascii_of_string (toLowerCase title)))).
End WithHost.

End Key.

(* ===================================================================== *)
(** * JavaScript values and completions *)
(* ===================================================================== *)

Module Js.

(** A value read from a JSON body. Numbers are kept to the integers. *)
#[warnings="-register-all"]
Inductive Json :=
| JNull
| JBool (b : bool)
| JNumber (n : Z)
| JString (s : string)
| JArray (elems : list Json)
| JObject (fields : list (string * Json)).

(** What a [throw] carries: an [Error] object (for which
    [error instanceof Error] holds) with its [name] and [message], or any
    other value. *)
Inductive Thrown :=
| ThrownError (name message : string)
| ThrownOther.

(** The outcome of evaluating a statement or awaiting a promise: a value,
    or an exception (a rejected promise). *)
Inductive Completion (A : Type) :=
| Normal (a : A)
| Throw (t : Thrown).
Global Arguments Normal {A} a.
Global Arguments Throw {A} t.

#[global] Instance completion_ret : MRet Completion := λ A a, Normal a.
#[global] Instance completion_bind : MBind Completion := λ A B f c,
  match c with
  | Normal a => f a
  | Throw t => Throw t
  end.

(** [try { body } catch (error) { handler }]. *)
Definition try_catch {A} (body : Completion A)
    (handler : Thrown → Completion A) : Completion A :=
  match body with
  | Normal a => Normal a
  | Throw t => handler t
  end.

Fixpoint assoc (k : string) (fields : list (string * Json)) : option Json :=
  match fields with
  | [] => None
  | (k', v) :: rest => if decide (k = k') then Some v else assoc k rest
  end.

(** [value.name]: a [TypeError] on [null], the property of an object (or
    [undefined], here [None]), and [undefined] on the other values, which
    have no own property of the names read here. *)
Definition member (name : string) (value : Json) : Completion (option Json) :=
  match value with
  | JNull =>
      Throw (ThrownError "TypeError"
               ("Cannot read properties of null (reading '" +:+ name +:+ "')"))
  | JObject fields => Normal (assoc name fields)
  | _ => Normal None
  end.

(** Truthiness, as [||] tests it; [None] is [undefined]. *)
Definition truthy (v : option Json) : bool :=
  match v with
  | None | Some JNull => false
  | Some (JBool b) => b
  | Some (JNumber n) => negb (n =? 0)
  | Some (JString s) => if decide (s = EmptyString) then false else true
  | Some (JArray _) | Some (JObject _) => true
  end.

End Js.

(* ===================================================================== *)
(** * The API wrapper *)
(* ===================================================================== *)

Module Api.
Import Js.

Definition API_BASE_URL : string := "http://localhost:54782".
Definition REQUEST_TIMEOUT : Z := 30000.

(** [interface ApiResponse<T>]. The [error] member is whatever the body
    carried under ["error"], or an object literal built by the wrapper. *)
Record ApiResponse (T : Type) := {
  success : bool;
  data : option T;
  error : option Json;
}.
Global Arguments success {T} _.
Global Arguments data {T} _.
Global Arguments error {T} _.

(** The part of [RequestInit] the wrappers set. The body is kept as the
    value handed to [JSON.stringify]. *)
Record RequestInit := {
  method : option string;
  headers : list (string * string);
  body : option Json;
}.

(** A [Response]: [ok] is derived from the status as the Fetch standard
    has it; [json] is the completion of [response.json()], which rejects
    when the body is not JSON text. *)
Record Response := {
  status : Z;
  statusText : string;
  json : Completion Json;
}.

Definition ok (r : Response) : bool := (200 <=? status r) && (status r <=? 299).

(** The network, as seen through [fetch(url, init)] with an abort signal
    that fires [timeout] milliseconds after the call: the promise resolves
    to a response or rejects. A request aborted by the signal rejects with
    a [DOMException] named [AbortError], which is an [Error]; every other
    failure of [fetch] is a [TypeError]. *)
Class Network := {
  fetch : string → RequestInit → Z → Completion Response;
}.

Definition error_object (type message : string) : Json :=
  JObject [("type", JString type); ("message", JString message)].

Definition failure {T} (err : Json) : ApiResponse T :=
  {| success := false; data := None; error := Some err |}.

(** The [catch] block of [apiRequest]. *)
Definition on_exception (t : Thrown) : ApiResponse Json :=
  match t with
  | ThrownError name message =>
      if decide (name = "AbortError") then
        failure (error_object "timeout_error"
          "Request timed out. Please check your connection and try again.")
      else
        failure (error_object "network_error" ("Network error: " +:+ message))
  | ThrownOther =>
      failure (error_object "unknown_error" "An unexpected error occurred")
  end.

(** The [type] member of the error of a response, when it is a string. *)
Definition error_type {T} (r : ApiResponse T) : option string :=
  match error r with
  | Some (JObject fields) =>
      match assoc "type" fields with
      | Some (JString t) => Some t
      | _ => None
      end
  | _ => None
  end.

(** The second argument of the [fetch] call: the options of the caller,
    with the JSON content type in front of the caller's headers. *)
Definition request_init (options : RequestInit) : RequestInit :=
  {| method := method options;
     headers := ("Content-Type", "application/json") :: headers options;
     body := body options |}.

Section WithNetwork.
Context `{Network}.

(** The [try] block of [apiRequest]. *)
Definition request_body (endpoint : string) (options : RequestInit)
    (timeout : Z) : Completion (ApiResponse Json) :=
  response ← fetch (API_BASE_URL +:+ endpoint) (request_init options) timeout;
  data ← json response;
  if negb (ok response) then
    err ← member "error" data;
    mret (failure
      (if truthy err then default JNull err
       else error_object "api_error"
              ("HTTP " +:+ pretty (status response) +:+ ": "
                 +:+ statusText response)))
  else
    mret {| success := true; data := Some data; error := None |}.

Definition apiRequest (endpoint : string) (options : RequestInit)
    (timeout : Z) : Completion (ApiResponse Json) :=
  try_catch (request_body endpoint options timeout)
    (λ t, mret (on_exception t)).

Definition post (payload : Json) : RequestInit :=
  {| method := Some "POST"; headers := []; body := Some payload |}.

Definition compileLatex (latexCode : string) : Completion (ApiResponse Json) :=
  apiRequest "/api/compile-latex"
    (post (JObject [("latexCode", JString latexCode)])) REQUEST_TIMEOUT.

Definition preprocessLatex (latexCode : string) : Completion (ApiResponse Json) :=
  apiRequest "/api/preprocess-latex"
    (post (JObject [("latexCode", JString latexCode)])) REQUEST_TIMEOUT.

(** [JSON.stringify] leaves out a member whose value is [undefined]. *)
Definition parseSections (latexCode : string) (templateId : option string)
    : Completion (ApiResponse Json) :=
  apiRequest "/api/parse-sections"
    (post (JObject (("latexCode", JString latexCode) ::
                    match templateId with
                    | Some t => [("templateId", JString t)]
                    | None => []
                    end))) REQUEST_TIMEOUT.

Definition filterLatex (parsedData selections : Json)
    : Completion (ApiResponse Json) :=
  apiRequest "/api/filter-latex"
    (post (JObject [("parsedData", parsedData); ("selections", selections)]))
    REQUEST_TIMEOUT.
End WithNetwork.

End Api.

(* ===================================================================== *)
(** * The data model shared by the page and the engine *)
(* ===================================================================== *)

Module Model.

(** [interface SectionMetadata]; [item_count] is optional. *)
Inductive SectionType := simple | complex.

Record SectionMetadata := {
  type : SectionType;
  label : string;
  item_count : option Z;
}.

(** [interface SectionData], the engine's section block. [items] is the
    ordered map from index to item text, kept as the list of the texts in
    document order: the index of an item is its position. The last two
    fields are not part of the TypeScript interface; they hold the wrapper
    markup and the section-level closing markup that the specification of
    the assembler speaks of. *)
Record SectionData := {
  full_content : string;
  section_header : string;
  has_items : bool;
  block_title : string;
  items : list string;
  wrapper : option (string * string);
  section_closing : string;
}.

(** [interface SectionInfo]. *)
Record SectionInfo := {
  title : string;
  subsections : list string;
}.

Record LatexBlocks := {
  preamble : string;
  sections : gmap string SectionData;
  closing : string;
}.

(** [interface ParsedData]. *)
Record ParsedData := {
  format_id : string;
  latex_blocks : LatexBlocks;
  section_info : list SectionInfo;
  original_latex : string;
}.

(** A value of [interface Selections]:
    [boolean | { enabled: boolean; items: number[] }]. *)
Inductive Selection :=
| SelBool (b : bool)
| SelItems (enabled : bool) (items : list Z).

#[global] Instance Selection_eq_dec : EqDecision Selection.
Proof. solve_decision. Defined.

End Model.

(* ===================================================================== *)
(** * The section selector page *)
(* ===================================================================== *)

Module Page.
Import Js Model.

(** The response body of [/api/parse-sections] once cast to its type. *)
Record ParseResult := {
  parsedData : ParsedData;
  metadata : gmap string SectionMetadata;
}.

(** The [useState] cells of the component that the handlers read or
    write. *)
Record PageState := {
  st_parsedData : option ParsedData;
  st_metadata : gmap string SectionMetadata;
  st_selections : gmap string Selection;
  st_error : option string;
  st_isParsing : bool;
}.

Definition initial_state : PageState :=
  {| st_parsedData := None; st_metadata := ∅; st_selections := ∅;
     st_error := None; st_isParsing := false |}.

(** [Array.from({ length: n }, (_, i) => i)]: the indices below [n],
    none when [n] is not positive. *)
Definition index_range (n : Z) : list Z := seqZ 0 n.

(** What the loop of lines 106-118 stores under a key that is not
    [header]; [item_count || 0] is 0 when the count is absent. *)
Definition initial_selection (sectionMeta : SectionMetadata) : Selection :=
  match type sectionMeta with
  | simple => SelBool true
  | complex =>
      SelItems true (index_range (default 0 (item_count sectionMeta)))
  end.

(** One turn of the loop over [Object.entries(metadata)]. *)
Definition init_entry (acc : gmap string Selection)
    (entry : string * SectionMetadata) : gmap string Selection :=
  if decide (entry.1 = "header") then acc
  else <[entry.1 := initial_selection entry.2]> acc.

Definition initialSelections (metadata : gmap string SectionMetadata)
    : gmap string Selection :=
  foldl init_entry ∅ (map_to_list metadata).

(** [result.error?.message || fallback], for a message that is a string
    when it is there at all, as [ApiResponse] declares it. *)
Definition message_or (err : option Json) (fallback : string) : string :=
  match err with
  | Some (JObject fields) =>
      match assoc "message" fields with
      | Some (JString m) => if decide (m = EmptyString) then fallback else m
      | _ => fallback
      end
  | _ => fallback
  end.

(** [error instanceof Error ? error.message : 'Unknown error occurred']. *)
Definition thrown_message (t : Thrown) : string :=
  match t with
  | ThrownError _ message => message
  | ThrownOther => "Unknown error occurred"
  end.

(** [parseLatexSections], from the point where the awaited call to
    [parseSections] completes with [result]. *)
Definition parseLatexSections
    (result : Completion (Api.ApiResponse ParseResult))
    (st : PageState) : PageState :=
  let finished :=
    match result with
    | Normal r =>
        if Api.success r then
          match Api.data r with
          | Some d =>
              {| st_parsedData := Some (parsedData d);
                 st_metadata := metadata d;
                 st_selections := initialSelections (metadata d);
                 st_error := None; st_isParsing := true |}
          | None =>
              {| st_parsedData := st_parsedData st;
                 st_metadata := st_metadata st;
                 st_selections := st_selections st;
                 st_error :=
                   Some "Cannot read properties of undefined (reading 'parsedData')";
                 st_isParsing := true |}
          end
        else
          {| st_parsedData := st_parsedData st; st_metadata := st_metadata st;
             st_selections := st_selections st;
             st_error :=
               Some (message_or (Api.error r) "Failed to parse LaTeX sections");
             st_isParsing := true |}
    | Throw t =>
        {| st_parsedData := st_parsedData st; st_metadata := st_metadata st;
           st_selections := st_selections st;
           st_error := Some (thrown_message t); st_isParsing := true |}
    end in
  {| st_parsedData := st_parsedData finished;
     st_metadata := st_metadata finished;
     st_selections := st_selections finished;
     st_error := st_error finished; st_isParsing := false |}.

(** [currentSelection?.items ?? []]: the items of an item selection; a
    boolean has no [items], and a missing entry is [undefined]. *)
Definition items_of (currentSelection : option Selection) : list Z :=
  match currentSelection with
  | Some (SelItems _ its) => its
  | _ => []
  end.

(** [handleSectionChange], lines 219-234, up to [setSelections]. Reading
    [.type] of a key that [metadata] does not have throws. *)
Definition handleSectionChange (metadata : gmap string SectionMetadata)
    (selections : gmap string Selection) (sectionKey : string)
    (enabled : bool) : Completion (gmap string Selection) :=
  match metadata !! sectionKey with
  | None =>
      Throw (ThrownError "TypeError"
               "Cannot read properties of undefined (reading 'type')")
  | Some meta =>
      match type meta with
      | simple => Normal (<[sectionKey := SelBool enabled]> selections)
      | complex =>
          Normal (<[sectionKey :=
                      SelItems enabled
                        (if enabled then items_of (selections !! sectionKey)
                         else [])]> selections)
      end
  end.

(** [newItems.includes(itemIndex)]. *)
Definition includes (its : list Z) (i : Z) : bool := bool_decide (i ∈ its).

(** [handleItemChange], lines 237-257, up to [setSelections]. *)
Definition handleItemChange (selections : gmap string Selection)
    (sectionKey : string) (itemIndex : Z) (enabled : bool)
    : gmap string Selection :=
  let newItems := items_of (selections !! sectionKey) in
  let newItems :=
    if enabled then
      if includes newItems itemIndex then newItems
      else newItems ++ [itemIndex]
    else filter (λ i, i ≠ itemIndex) newItems in
  <[sectionKey := SelItems (bool_decide (0 < length newItems)%nat) newItems]>
    selections.

(** The two checkbox events and what they do to the page: a handler that
    throws leaves the state as it was. *)
Inductive Event :=
| SectionToggled (sectionKey : string) (enabled : bool)
| ItemToggled (sectionKey : string) (itemIndex : Z) (enabled : bool).

Definition set_selections (st : PageState) (s : gmap string Selection)
    : PageState :=
  {| st_parsedData := st_parsedData st; st_metadata := st_metadata st;
     st_selections := s; st_error := st_error st;
     st_isParsing := st_isParsing st |}.

Definition dispatch (st : PageState) (ev : Event) : PageState :=
  match ev with
  | SectionToggled k b =>
      match handleSectionChange (st_metadata st) (st_selections st) k b with
      | Normal s => set_selections st s
      | Throw _ => st
      end
  | ItemToggled k i b =>
      set_selections st (handleItemChange (st_selections st) k i b)
  end.

Definition run (st : PageState) (evs : list Event) : PageState :=
  foldl dispatch st evs.

Section WithHost.
Context `{HostString}.

(** [getSubsectionTitles], lines 68-78. *)
Definition getSubsectionTitles (parsedData : option ParsedData)
    (sectionKey : string) : list string :=
  match parsedData with
  | None => []
  | Some p =>
      match list_find (λ s, Key.normalizedTitle (title s) = sectionKey)
              (section_info p) with
      | Some (_, section) => subsections section
      | None => []
      end
  end.

(** The position the sort comparator of lines 746-764 gives a key on a
    page that holds parsed data: [findIndex] over [section_info], with
    999 for a key that is not found. *)
Definition sort_position (parsedData : ParsedData) (sectionKey : string)
    : Z :=
  match list_find (λ s, Key.normalizedTitle (title s) = sectionKey)
          (section_info parsedData) with
  | Some (i, _) => Z.of_nat i
  | None => 999
  end.
End WithHost.

(** In every item selection of the map the indices are pairwise
    different. *)
Definition items_distinct (s : gmap string Selection) : Prop :=
  ∀ k, NoDup (items_of (s !! k)).

(** The entries the page renders a checkbox for (line 747). *)
Definition selectable (metadata : gmap string SectionMetadata)
    : list (string * SectionMetadata) :=
  filter (λ e, e.1 ≠ "header") (map_to_list metadata).

End Page.

(* ===================================================================== *)
(** * The assembler and the validator *)
(* ===================================================================== *)

(** The back end ([backend/Output/section_selector.py], with the parsers
    of [backend/Section_parsers]) is not among the sources; this module
    follows sections 4.2, 4.4 and 4.5 of the specification for the
    assembler [generate_filtered_latex] and the brace validator. *)
Module Engine.
Import Model.

Definition backslash : ascii := "\"%char.
Definition open_brace : ascii := "{"%char.
Definition close_brace : ascii := "}"%char.
Definition newline : string := String (ascii_of_nat 10) EmptyString.

(** Modelled from the spec: the blank line ([\n\n]) put after every emitted
    item but the last (4.4, step 4). *)
Fixpoint join_items (texts : list string) : string :=
  match texts with
  | [] => EmptyString
  | [t] => t
  | t :: rest => t +:+ newline +:+ newline +:+ join_items rest
  end.

(** Modelled from the spec: assembly is "string concatenation only" of
    the emitted blocks (4.4). *)
Definition concat_blocks (blocks : list string) : string :=
  foldr String.append EmptyString blocks.

(** Modelled from the spec: the text of the item with a given index; an
    index that names no item of the block yields nothing. *)
Definition item_at (texts : list string) (i : Z) : option string :=
  if decide (0 ≤ i) then texts !! Z.to_nat i else None.

(** Modelled from the spec: "re-sort requested item indices into original
    document order (selection order is never trusted)" (4.4, step 4). The
    requested items are a set (section 3), so an index asked for twice is
    one request. *)
Definition document_order (requested : list Z) : list Z :=
  merge_sort Z.le (remove_dups requested).

(** Modelled from the spec: the indices of a fully selected section, the
    default of the assembler for a key missing from the selections. *)
Definition all_indices (b : SectionData) : list Z :=
  seqZ 0 (Z.of_nat (length (items b))).

(** Modelled from the spec: what the assembler emits for a section, header
    and content as a whole (simple section), or the header, the wrapper
    and the items with the given indices (complex section). *)
Inductive Emission :=
| Whole
| Items (indices : list Z).

(** Modelled from the spec: the decision of 4.4, steps 3 and 4, with the
    tie-break that a key missing from the selections is fully selected. A
    simple section is emitted iff its selection is [true] or absent. A
    complex section is omitted if [enabled] is false or [items] is empty.
    The specification does not say what a boolean selection means for a
    complex section; here [true] selects every item and [false] omits the
    section. *)
Definition choose (b : SectionData) (sel : option Selection)
    : option Emission :=
  if has_items b then
    match sel with
    | None => Some (Items (all_indices b))
    | Some (SelItems enabled its) =>
        if enabled && bool_decide (its ≠ []) then
          Some (Items (document_order its))
        else None
    | Some (SelBool true) => Some (Items (all_indices b))
    | Some (SelBool false) => None
    end
  else
    match sel with
    | None | Some (SelBool true) => Some Whole
    | _ => None
    end.

(** Modelled from the spec: the text of an emitted section (4.4, steps 3
    and 4): header, wrapper begin, the items, wrapper end, section-level
    closing markup. *)
Definition render (b : SectionData) (e : Emission) : string :=
  match e with
  | Whole => section_header b +:+ full_content b
  | Items indices =>
      section_header b
      +:+ from_option fst EmptyString (wrapper b)
      +:+ join_items (omap (item_at (items b)) indices)
      +:+ from_option snd EmptyString (wrapper b)
      +:+ section_closing b
  end.

(** Modelled from the spec: a section the assembler emits, with the block
    it is taken from. *)
Record Emitted := {
  em_key : string;
  em_block : SectionData;
  em_what : Emission;
}.

Section WithHost.
Context `{HostString}.

(** Modelled from the spec: the key of a section is its normalised
    title (4.2, key normalization). *)
Definition section_key (info : SectionInfo) : string :=
  Key.spec_key (title info).

(** Modelled from the spec: one step of the walk over [section_info]; a
    title without a block emits nothing. *)
Definition plan_section (blocks : LatexBlocks)
    (selections : gmap string Selection) (info : SectionInfo)
    : option Emitted :=
  b ← sections blocks !! section_key info;
  e ← choose b (selections !! section_key info);
  Some {| em_key := section_key info; em_block := b; em_what := e |}.

(** Modelled from the spec: "iterate [section_info] in order (never the
    unordered [sections] map)". *)
Definition plan (p : ParsedData) (selections : gmap string Selection)
    : list Emitted :=
  omap (plan_section (latex_blocks p) selections) (section_info p).

(** Modelled from the spec: [assemble(parsed_data, selections)], 4.4:
    preamble, the emitted sections, closing. *)
Definition assemble (p : ParsedData) (selections : gmap string Selection)
    : string :=
  preamble (latex_blocks p)
  +:+ concat_blocks ((λ e, render (em_block e) (em_what e)) <$> plan p selections)
  +:+ closing (latex_blocks p).
End WithHost.

Section WithHost.
Context `{HostString}.

(** The parsed data of the document that has nothing under the key [k]:
    no entry of [section_info] with that key, and no block under it in
    the [sections] map, so neither its header nor its wrapper is left to
    take text from. *)
Definition without_section (k : string) (p : ParsedData) : ParsedData :=
  {| format_id := format_id p;
     latex_blocks :=
       {| preamble := preamble (latex_blocks p);
          sections := delete k (sections (latex_blocks p));
          closing := closing (latex_blocks p) |};
     section_info := filter (λ info, section_key info ≠ k) (section_info p);
     original_latex := original_latex p |}.
End WithHost.

(** Modelled from the spec: the selections as the filter entry point
    receives them, the members of a JSON object in the order the sender
    enumerated its keys, read into a map. *)
Definition selections_of_entries (entries : list (string * Selection))
    : gmap string Selection :=
  list_to_map entries.

(** Modelled from the spec: the count of one brace character over a text,
    where a character preceded by a backslash is not counted (4.5).
    [escaped] tells whether the previous character was a backslash. *)
Fixpoint count_unescaped (brace : ascii) (escaped : bool) (l : list ascii)
    : nat :=
  match l with
  | [] => 0
  | c :: r =>
      ((if bool_decide (c = brace) && negb escaped then 1 else 0)
       + count_unescaped brace (bool_decide (c = backslash)) r)%nat
  end.

(** Modelled from the spec: the two answers of the validator (4.5). *)
Inductive Verdict := Ok | BraceMismatch.

(** Modelled from the spec: [validate(filtered_latex) -> Ok | BraceMismatch]. *)
Definition validate (filtered_latex : string) : Verdict :=
  let l := String.list_ascii_of_string filtered_latex in
  if decide (count_unescaped open_brace false l
             = count_unescaped close_brace false l)
  then Ok else BraceMismatch.

(** Modelled from the spec: what the filter step hands back, the filtered
    text in every case, the verdict, and the paths of the debug files it
    wrote (7, [BraceMismatch]). *)
Record FilterResult := {
  filtered_latex : string;
  verdict : Verdict;
  debug_paths : list string;
}.

Section WithHost.
Context `{HostString}.

(** Modelled from the spec: assembly followed by validation (4.5, 6, 7).
    [files] is the temporary directory, from file name to content; on a
    mismatch the debug pair is written and nothing is repaired. *)
Definition generate_filtered_latex (p : ParsedData)
    (selections : gmap string Selection) (files : gmap string string)
    : FilterResult * gmap string string :=
  let out := assemble p selections in
  match validate out with
  | Ok =>
      ({| filtered_latex := out; verdict := Ok; debug_paths := [] |}, files)
  | BraceMismatch =>
      ({| filtered_latex := out; verdict := BraceMismatch;
          debug_paths := ["filtered_debug.tex"; "original_debug.tex"] |},
       <["original_debug.tex" := original_latex p]>
         (<["filtered_debug.tex" := out]> files))
  end.
End WithHost.

(** ** The properties the assembler and the validator are held to *)

(** Position [i] of a text holds the given brace, and the character right
    before it, if there is one, is not a backslash. *)
Definition unescaped_at (brace : ascii) (l : list ascii) (i : nat) : bool :=
  bool_decide (l !! i = Some brace)
  && negb (bool_decide ((0 < i)%nat ∧ l !! pred i = Some backslash)).

(** The number of such positions over the whole text. *)
Definition unescaped_count (brace : ascii) (doc : string) : nat :=
  let l := String.list_ascii_of_string doc in
  length (filter (λ i, unescaped_at brace l i = true) (seq 0 (length l))).

(** Two selections that differ at most in the order of their items. *)
Definition same_choice (a b : Selection) : Prop :=
  match a, b with
  | SelItems e1 l1, SelItems e2 l2 => e1 = e2 ∧ l1 ≡ₚ l2
  | _, _ => a = b
  end.

(** Two lists of entries that hold the same keys, enumerated in any
    order, each key with the same selection up to the order of its
    items. *)
Definition reordered (es1 es2 : list (string * Selection)) : Prop :=
  ∃ es, es1 ≡ₚ es
        ∧ Forall2 (λ a b, a.1 = b.1 ∧ same_choice a.2 b.2) es es2.

(** The item indices of an emission go strictly up. *)
Definition ascending (e : Emission) : Prop :=
  match e with
  | Whole => True
  | Items indices => StronglySorted Z.lt indices
  end.

(** The texts of the items an emission names, in the order in which it
    names them; nothing for a section emitted as a whole. *)
Definition emitted_items (e : Emitted) : list string :=
  match em_what e with
  | Whole => []
  | Items indices => omap (item_at (items (em_block e))) indices
  end.

(** The pieces of text an emitted section consists of, from first to
    last (4.4, steps 3 and 4): for a simple section the header and the
    content; for a complex section the header, the wrapper begin, the
    emitted items one after the other with a blank line between two of
    them, the wrapper end and the section-level closing markup. *)
Definition emitted_pieces (e : Emitted) : list string :=
  let b := em_block e in
  match em_what e with
  | Whole => [section_header b; full_content b]
  | Items _ =>
      [section_header b;
       from_option fst EmptyString (wrapper b);
       String.concat (newline +:+ newline) (emitted_items e);
       from_option snd EmptyString (wrapper b);
       section_closing b]
  end.

(** The pieces of a whole document, from first to last: the preamble, the
    pieces of the emitted sections in the order given, the closing. *)
Definition document_pieces (blocks : LatexBlocks) (emitted : list Emitted)
    : list string :=
  [preamble blocks] ++ (emitted ≫= emitted_pieces) ++ [closing blocks].

(** What is emitted for a section comes from the block stored under the
    key of the section, the item indices go strictly up, and the item
    texts stand in the order in which the block holds them. *)
Definition in_document_order (blocks : LatexBlocks) (e : Emitted) : Prop :=
  sections blocks !! em_key e = Some (em_block e)
  ∧ ascending (em_what e)
  ∧ sublist (emitted_items e) (items (em_block e)).

End Engine.

(* ===================================================================== *)
(** * Worked data *)
(* ===================================================================== *)

Module Sample.
Import Js Model Page.

Definition meta (t : SectionType) (l : string) (n : option Z)
    : SectionMetadata :=
  {| type := t; label := l; item_count := n |}.

Definition sample_metadata : gmap string SectionMetadata :=
  <["header" := meta simple "Header" None]>
  (<["summary" := meta simple "Summary" None]>
  (<["education" := meta complex "Education" (Some 2)]>
  (<["experience" := meta complex "Experience" None]> ∅))).

Definition block (header content : string) (texts : list string)
    (w : option (string * string)) : SectionData :=
  {| full_content := content; section_header := header;
     has_items := bool_decide (texts ≠ []); block_title := header;
     items := texts; wrapper := w; section_closing := EmptyString |}.

Definition education_block : SectionData :=
  block "\section{Education}" "\textbf{MIT}\textbf{Stanford}"
    ["\textbf{MIT}"; "\textbf{Stanford}"]
    (Some ("\begin{multicols}{2}", "\end{multicols}")).

Definition sample_blocks : LatexBlocks :=
  {| preamble := "\documentclass{article}\begin{document}";
     sections :=
       <["summary" := block "\section{Summary}" "Engineer." [] None]>
       (<["education" := education_block]>
       (<["experience" :=
            block "\section{Experience}" "\item Acme\item Globex"
              ["\item Acme"; "\item Globex"] None]> ∅));
     closing := "\end{document}" |}.

Definition sample_parsed : ParsedData :=
  {| format_id := "ATS";
     latex_blocks := sample_blocks;
     section_info :=
       [ {| title := "Summary"; subsections := [] |};
         {| title := "Education"; subsections := ["MIT"; "Stanford"] |};
         {| title := "Experience"; subsections := ["Acme"; "Globex"] |} ];
     original_latex :=
       "\documentclass{article}\begin{document}\section{Summary}Engineer.\end{document}" |}.

(** The sample with the closing brace of the first education item lost. *)
Definition broken_parsed : ParsedData :=
  {| format_id := "ATS";
     latex_blocks :=
       {| preamble := preamble sample_blocks;
          sections :=
            <["education" :=
                block "\section{Education}" "\textbf{MIT\textbf{Stanford}"
                  ["\textbf{MIT"; "\textbf{Stanford}"] None]>
              (sections sample_blocks);
          closing := closing sample_blocks |};
     section_info := section_info sample_parsed;
     original_latex := original_latex sample_parsed |}.

(** Two enumerations of the same selections. *)
Definition entries_one : list (string * Selection) :=
  [("education", SelItems true [1; 0]); ("experience", SelItems true [1])].

Definition entries_two : list (string * Selection) :=
  [("experience", SelItems true [1]); ("education", SelItems true [0; 1])].

Definition sample_response : Api.ApiResponse ParseResult :=
  {| Api.success := true;
     Api.data := Some {| parsedData := sample_parsed;
                         metadata := sample_metadata |};
     Api.error := None |}.

Definition sample_result : ParseResult :=
  {| parsedData := sample_parsed; metadata := sample_metadata |}.

(** A server that answers every request with status 200 and a body that
    is not JSON text. *)
Definition net_not_json : Api.Network :=
  {| Api.fetch := λ _ _ _,
       Normal {| Api.status := 200; Api.statusText := "OK";
                 Api.json := Throw (ThrownError "SyntaxError"
                                      "Unexpected end of JSON input") |} |}.

(** A server that never answers: the abort signal ends every request. *)
Definition net_silent : Api.Network :=
  {| Api.fetch := λ _ _ _,
       Throw (ThrownError "AbortError" "signal is aborted without reason") |}.

(** The page right after the parse of the sample has succeeded. *)
Definition sample_page : PageState :=
  parseLatexSections (Normal sample_response) initial_state.

End Sample.

(* ===================================================================== *)
(** * Key characters *)
(* ===================================================================== *)

Module KeyChars.

(** A character a key may hold: one of [[a-z0-9]], or the underscore. *)
Definition key_char (c : ascii) : Prop :=
  Key.in_az09 c = true ∨ c = Key.underscore.

End KeyChars.

(* ===================================================================== *)
(** * What the selector page renders *)
(* ===================================================================== *)

Module PageView.
Import Js Model Page.

(** The [checked] attribute of the checkbox of a section (line 770). For
    a simple section it is [selections[key] ?? false]: an item selection
    stored there is an object and counts as checked. For a complex section
    it is [selections[key]?.enabled ?? false]: a boolean stored there has
    no [enabled]. *)
Definition section_checked (meta : SectionMetadata)
    (sel : option Selection) : bool :=
  match type meta with
  | simple =>
      match sel with
      | Some (SelBool b) => b
      | Some (SelItems _ _) => true
      | None => false
      end
  | complex =>
      match sel with
      | Some (SelItems enabled _) => enabled
      | _ => false
      end
  end.

(** The [checked] attribute of the checkbox of an item (line 793):
    [(selections[key]?.items ?? []).includes(index)]. *)
Definition item_checked (sel : option Selection) (index : Z) : bool :=
  includes (items_of sel) index.

(** The number in front of the slash of the counter of lines 775-778,
    shown when the section is complex and [selections[key]] is truthy;
    reading [.items.length] of a boolean [true] throws. *)
Definition items_counter (meta : SectionMetadata) (sel : option Selection)
    : Completion (option nat) :=
  match type meta with
  | simple => Normal None
  | complex =>
      match sel with
      | Some (SelItems _ its) => Normal (Some (length its))
      | Some (SelBool true) =>
          Throw (ThrownError "TypeError"
                   "Cannot read properties of undefined (reading 'length')")
      | Some (SelBool false) | None => Normal None
      end
  end.

(** The number of item checkboxes rendered under a key (lines 782-784):
    one for each key of the items of the section block, none when there
    is no parsed data or no such block. *)
Definition rendered_items (parsedData : option ParsedData) (key : string)
    : nat :=
  match parsedData with
  | Some p =>
      match sections (latex_blocks p) !! key with
      | Some b => length (items b)
      | None => 0%nat
      end
  | None => 0%nat
  end.

(** The events the rendered checkboxes can raise: a section checkbox
    exists for every metadata key but [header] (lines 746-747), an item
    checkbox for every rendered item of a complex section (line 782). *)
Definition offered (st : PageState) (ev : Event) : Prop :=
  match ev with
  | SectionToggled k _ => k ≠ "header" ∧ is_Some (st_metadata st !! k)
  | ItemToggled k i _ =>
      k ≠ "header"
      ∧ (∃ m, st_metadata st !! k = Some m ∧ type m = complex)
      ∧ 0 ≤ i < Z.of_nat (rendered_items (st_parsedData st) k)
  end.

(** The largest item index a selection of the key can hold, plus one: the
    initial selection goes up to [item_count], the checkboxes up to the
    number of rendered items. *)
Definition index_bound (parsedData : option ParsedData) (key : string)
    (meta : SectionMetadata) : Z :=
  Z.max (default 0 (item_count meta))
        (Z.of_nat (rendered_items parsedData key)).

End PageView.

(* ===================================================================== *)
(** * Filtering and compiling for the preview *)
(* ===================================================================== *)

Module Preview.
Import Js Model Page.










Section WithBackend.
Context `{Backend}.



End WithBackend.

End Preview.

(* ===================================================================== *)
(** * Shape of the selections of a page *)
(* ===================================================================== *)

Module PageShape.
Import Js Model Page PageView.

(** The selections fit the metadata: no entry for [header] or for a key
    the metadata lack, a boolean for a simple key, and for a complex key
    an item selection whose indices are pairwise different and lie below
    the bound of the key. *)
Definition fits (md : gmap string SectionMetadata)
    (parsedData : option ParsedData) (s : gmap string Selection) : Prop :=
  ∀ k,
    match (if decide (k = "header") then None else md !! k) with
    | None => s !! k = None
    | Some m =>
        match type m with
        | simple => ∃ b, s !! k = Some (SelBool b)
        | complex =>
            ∃ enabled its,
              s !! k = Some (SelItems enabled its)
              ∧ NoDup its
              ∧ Forall (λ i, 0 ≤ i < index_bound parsedData k m) its
        end
    end.

(** An item selection that is switched off holds no items. *)
Definition disabled_are_empty (s : gmap string Selection) : Prop :=
  ∀ k its, s !! k = Some (SelItems false its) → its = [].

End PageShape.

(* ===================================================================== *)
(** * Saving and loading the configuration *)
(* ===================================================================== *)

(** [frontend/src/utils/configStorage.ts], lines 24-103. *)
Module Config.
Import Js.

(** [interface UserConfig]. *)
Record UserConfig := {
  selectedProvider : string;
  selectedModel : string;
  apiKey : string;
}.

(** [fetch(url, init)] without an abort signal. *)
Class PlainNetwork := {
  fetch_plain : string → Api.RequestInit → Completion Api.Response;
}.

(** The object both [catch] blocks return. *)
Definition network_failure : Json :=
  JObject [("success", JBool false);
           ("error", Api.error_object "network_error"
                       "Failed to connect to backend server")].

Definition json_headers : list (string * string) :=
  [("Content-Type", "application/json")].

(** The body [saveConfig] sends: the configuration under the names of the
    back end. *)
Definition save_payload (config : UserConfig) : Json :=
  JObject [("provider", JString (selectedProvider config));
           ("model", JString (selectedModel config));
           ("apiKey", JString (apiKey config))].

(** A member of an object literal; a member whose value is [undefined] is
    left out, since reading it gives [undefined] either way. *)
Definition present (name : string) (v : option Json) : list (string * Json) :=
  match v with
  | Some j => [(name, j)]
  | None => []
  end.

Fixpoint assoc_set (name : string) (v : Json) (fields : list (string * Json))
    : list (string * Json) :=
  match fields with
  | [] => [(name, v)]
  | (k, w) :: rest =>
      if decide (name = k) then (k, v) :: rest
      else (k, w) :: assoc_set name v rest
  end.

(** [target.name = v]: the member is replaced where it stands, or added
    at the end; on a value that is not an object the assignment throws,
    the module being strict code. *)
Definition set_member (name : string) (v : Json) (target : Json)
    : Completion Json :=
  match target with
  | JObject fields => Normal (JObject (assoc_set name v fields))
  | _ =>
      Throw (ThrownError "TypeError"
               ("Cannot create property '" +:+ name +:+ "'"))
  end.

Section WithNetwork.
Context `{PlainNetwork}.

(** [saveConfig], lines 29-62. The branches on [result.success] only
    log. *)
Definition saveConfig (config : UserConfig) : Completion Json :=
  try_catch
    (response ← fetch_plain (Api.API_BASE_URL +:+ "/api/save-config")
       {| Api.method := Some "POST"; Api.headers := json_headers;
          Api.body := Some (save_payload config) |};
     result ← Api.json response;
     _ ← member "success" result;
     mret result)
    (λ _, mret network_failure).

(** [loadConfig], lines 67-103. *)
Definition loadConfig : Completion Json :=
  try_catch
    (response ← fetch_plain (Api.API_BASE_URL +:+ "/api/load-config")
       {| Api.method := Some "GET"; Api.headers := json_headers;
          Api.body := None |};
     result ← Api.json response;
     success ← member "success" result;
     if truthy success then
       config ← member "config" result;
       if truthy config then
         provider ← member "provider" (default JNull config);
         model ← member "model" (default JNull config);
         key ← member "apiKey" (default JNull config);
         set_member "config"
           (JObject (present "selectedProvider" provider
                     ++ present "selectedModel" model
                     ++ present "apiKey" key))
           result
       else mret result
     else mret result)
    (λ _, mret network_failure).
End WithNetwork.

(** The configuration as the front end names it. *)
Definition frontend_config (config : UserConfig) : Json :=
  JObject [("selectedProvider", JString (selectedProvider config));
           ("selectedModel", JString (selectedModel config));
           ("apiKey", JString (apiKey config))].

End Config.

(* ===================================================================== *)
(** * Uploading a file *)
(* ===================================================================== *)

(** [uploadFile], lines 211-273 of the API utility functions. *)
Module Upload.
Import Js.

(** What the model keeps of a [File]. *)
Record File := {
  file_name : string;
  file_size : Z;
}.

(** [fetch(url, { method: 'POST', body: formData, signal })], where the
    form holds the file under [file] and the signal fires after the given
    number of milliseconds. *)
Class FormNetwork := {
  fetch_form : string → File → Z → Completion Api.Response;
}.

(** The [catch] block of [uploadFile]. *)
Definition on_upload_exception (t : Thrown) : Api.ApiResponse Json :=
  match t with
  | ThrownError name message =>
      if decide (name = "AbortError") then
        Api.failure (Api.error_object "timeout_error"
          "Upload timed out. Please try again with a smaller file.")
      else
        Api.failure
          (Api.error_object "network_error" ("Upload failed: " +:+ message))
  | ThrownOther =>
      Api.failure (Api.error_object "unknown_error"
                     "Upload failed due to an unexpected error")
  end.

Section WithNetwork.
Context `{FormNetwork}.

Definition uploadFile (file : File) : Completion (Api.ApiResponse Json) :=
  try_catch
    (response ← fetch_form (Api.API_BASE_URL +:+ "/api/upload") file
       Api.REQUEST_TIMEOUT;
     data ← Api.json response;
     if negb (Api.ok response) then
       err ← member "error" data;
       mret (Api.failure
         (if truthy err then default JNull err
          else Api.error_object "upload_error"
                 ("Upload failed: " +:+ Api.statusText response)))
     else
       mret {| Api.success := true; Api.data := Some data;
               Api.error := None |})
    (λ t, mret (on_upload_exception t)).
End WithNetwork.

End Upload.

(* ===================================================================== *)
(** * The preloader *)
(* ===================================================================== *)

(** [frontend/src/utils/dataPreloader.ts]: the module-level cache and the
    functions around the combined init request. A call is taken to run to
    its end before the next one starts. *)
Module Preloader.
Import Js.

(** What the preloader reads of a template: its [id]. *)
Record Template := {
  id : string;
  template_name : string;
}.

(** The body of [/api/init] once cast to its type. *)
Record InitData := {
  providers : gmap string (list string);
  templates : list Template;
}.

(** [interface PreloadedData]. *)
Record PreloadedData := {
  pd_providers : option (gmap string (list string));
  pd_templates : option (list Template);
  templatePreviews : gmap string string;
  templatePdfs : gmap string string;
  isLoaded : bool;
  isLoading : bool;
  error : option string;
}.

(** The state of the module: the cache, the two memoised promises, each
    absent or settled, and the requests sent to the server so far. *)
Record Loader := {
  preloadedData : PreloadedData;
  preloadPromise : option (Completion unit);
  criticalDataPromise : option (Completion unit);
  requests : list string;
}.

Definition initial_loader : Loader :=
  {| preloadedData :=
       {| pd_providers := None; pd_templates := None;
          templatePreviews := ∅; templatePdfs := ∅;
          isLoaded := false; isLoading := false; error := None |};
     preloadPromise := None;
     criticalDataPromise := None;
     requests := [] |}.

(** What [getInitData] resolves to: the answer to the n-th init request. *)
Class InitServer := {
  init_answer : nat → Completion (Api.ApiResponse InitData);
}.

(** [getTemplatePreviewUrl], line 299 of the API utility functions. *)
Definition getTemplatePreviewUrl (templateId : string) : string :=
  Api.API_BASE_URL +:+ "/api/templates/" +:+ templateId +:+ "/preview".

(** The text a template literal makes of a JSON value. *)
Fixpoint to_text (v : Json) : string :=
  match v with
  | JNull => "null"
  | JBool b => if b then "true" else "false"
  | JNumber n => pretty n
  | JString s => s
  | JArray elems =>
      (fix go (l : list Json) : string :=
         match l with
         | [] => EmptyString
         | x :: rest =>
             let t := match x with
                      | JNull => EmptyString
                      | _ => to_text x
                      end in
             match rest with
             | [] => t
             | _ :: _ => t +:+ "," +:+ go rest
             end
         end) elems
  | JObject _ => "[object Object]"
  end.

(** [`${value}`], where [None] is [undefined]. *)
Definition template_text (v : option Json) : string :=
  match v with
  | None => "undefined"
  | Some j => to_text j
  end.

(** [value?.name]. *)
Definition optional_member (name : string) (value : option Json)
    : option Json :=
  match value with
  | None | Some JNull => None
  | Some (JObject fields) => assoc name fields
  | Some _ => None
  end.

Definition with_data (pd : PreloadedData) (l : Loader) : Loader :=
  {| preloadedData := pd; preloadPromise := preloadPromise l;
     criticalDataPromise := criticalDataPromise l; requests := requests l |}.

Section WithServer.
Context `{InitServer}.

(** The body of the [try] block of [loadCriticalData], lines 51-65, with
    the cache it leaves. *)
Definition critical_try (pd : PreloadedData) (n : nat)
    : PreloadedData * Completion unit :=
  let pd :=
    {| pd_providers := pd_providers pd; pd_templates := pd_templates pd;
       templatePreviews := templatePreviews pd;
       templatePdfs := templatePdfs pd; isLoaded := isLoaded pd;
       isLoading := true; error := error pd |} in
  match init_answer n with
  | Throw t => (pd, Throw t)
  | Normal initResult =>
      if Api.success initResult then
        match Api.data initResult with
        | None =>
            (pd, Throw (ThrownError "TypeError"
                   "Cannot read properties of undefined (reading 'providers')"))
        | Some d =>
            ({| pd_providers := Some (providers d);
                pd_templates := Some (templates d);
                templatePreviews := templatePreviews pd;
                templatePdfs := templatePdfs pd; isLoaded := isLoaded pd;
                isLoading := isLoading pd; error := error pd |},
             Normal ())
        end
      else
        (pd, Throw (ThrownError "Error"
               ("Failed to load init data: "
                +:+ template_text
                      (optional_member "message" (Api.error initResult)))))
  end.

(** [loadCriticalData], lines 47-74. *)
Definition loadCriticalData (l : Loader) : Loader * Completion unit :=
  match criticalDataPromise l with
  | Some p => (l, p)
  | None =>
      let '(pd, outcome) := critical_try (preloadedData l) (length (requests l)) in
      let pd :=
        match outcome with
        | Normal _ => pd
        | Throw t =>
            {| pd_providers := pd_providers pd; pd_templates := pd_templates pd;
               templatePreviews := templatePreviews pd;
               templatePdfs := templatePdfs pd; isLoaded := isLoaded pd;
               isLoading := isLoading pd;
               error := Some match t with
                             | ThrownError _ message => message
                             | ThrownOther => "Unknown error"
                             end |}
        end in
      ({| preloadedData := pd; preloadPromise := preloadPromise l;
          criticalDataPromise := Some outcome;
          requests := requests l ++ ["/api/init"] |}, outcome)
  end.

(** [loadSecondaryData], lines 81-107: it has no [await], so it is over
    when the call returns. *)
Definition loadSecondaryData (l : Loader) : Loader :=
  let pd := preloadedData l in
  let previews :=
    match pd_templates pd with
    | Some ts =>
        foldl (λ m template,
                 <[id template := getTemplatePreviewUrl (id template)]> m)
          (templatePreviews pd) ts
    | None => templatePreviews pd
    end in
  with_data
    {| pd_providers := pd_providers pd; pd_templates := pd_templates pd;
       templatePreviews := previews; templatePdfs := templatePdfs pd;
       isLoaded := true; isLoading := false; error := error pd |} l.

(** [preloadAllData], lines 113-125. *)
Definition preloadAllData (l : Loader) : Loader * Completion unit :=
  match preloadPromise l with
  | Some p => (l, p)
  | None =>
      let '(l, outcome) := loadCriticalData l in
      match outcome with
      | Normal _ =>
          let l := loadSecondaryData l in
          ({| preloadedData := preloadedData l;
              preloadPromise := Some (Normal ());
              criticalDataPromise := criticalDataPromise l;
              requests := requests l |}, Normal ())
      | Throw t =>
          ({| preloadedData := preloadedData l;
              preloadPromise := Some (Throw t);
              criticalDataPromise := criticalDataPromise l;
              requests := requests l |}, Throw t)
      end
  end.

(** [waitForCriticalData], lines 227-237. *)
Definition waitForCriticalData (l : Loader) : Loader * Completion unit :=
  match pd_providers (preloadedData l) with
  | Some _ => (l, Normal ())
  | None =>
      match criticalDataPromise l with
      | Some p => (l, p)
      | None => loadCriticalData l
      end
  end.

(** [waitForPreload], lines 242-252. *)
Definition waitForPreload (l : Loader) : Loader * Completion unit :=
  if isLoaded (preloadedData l) then (l, Normal ())
  else
    match preloadPromise l with
    | Some p => (l, p)
    | None => preloadAllData l
    end.

(** The calls a client of the module can make, and a run of them. *)
Inductive Call := CallPreloadAll | CallWaitCritical | CallWaitPreload.

Definition perform (l : Loader) (c : Call) : Loader * Completion unit :=
  match c with
  | CallPreloadAll => preloadAllData l
  | CallWaitCritical => waitForCriticalData l
  | CallWaitPreload => waitForPreload l
  end.

Definition run_calls (l : Loader) (cs : list Call) : Loader :=
  foldl (λ l c, (perform l c).1) l cs.
End WithServer.

(** [getLoadingError], [isCriticalDataLoaded], [isDataLoading] and
    [getPreloadedTemplatePreview]. *)
Definition getLoadingError (l : Loader) : option string :=
  error (preloadedData l).

Definition isCriticalDataLoaded (l : Loader) : bool :=
  bool_decide (is_Some (pd_providers (preloadedData l)))
  && bool_decide (is_Some (pd_templates (preloadedData l))).

Definition isDataLoading (l : Loader) : bool := isLoading (preloadedData l).

Definition getPreloadedTemplatePreview (l : Loader) (templateId : string)
    : option string :=
  match templatePreviews (preloadedData l) !! templateId with
  | Some url => if decide (url = EmptyString) then None else Some url
  | None => None
  end.

(** What holds of the module state at every moment between calls. *)
Record consistent (l : Loader) : Prop := {
  one_request :
    match criticalDataPromise l with
    | None => requests l = []
    | Some _ => requests l = ["/api/init"]
    end;
  error_iff_rejected :
    match criticalDataPromise l with
    | Some (Throw _) =>
        is_Some (error (preloadedData l))
        ∧ pd_providers (preloadedData l) = None
        ∧ isLoading (preloadedData l) = true
        ∧ isLoaded (preloadedData l) = false
    | Some (Normal _) =>
        error (preloadedData l) = None
        ∧ is_Some (pd_providers (preloadedData l))
        ∧ is_Some (pd_templates (preloadedData l))
    | None =>
        error (preloadedData l) = None
        ∧ pd_providers (preloadedData l) = None
        ∧ isLoaded (preloadedData l) = false
    end;
  preload_follows_critical :
    match preloadPromise l with
    | None => isLoaded (preloadedData l) = false
    | Some (Normal _) =>
        isLoaded (preloadedData l) = true
        ∧ isLoading (preloadedData l) = false
        ∧ criticalDataPromise l = Some (Normal ())
    | Some (Throw t) =>
        criticalDataPromise l = Some (Throw t)
    end;
}.

(** The preview URLs are those of the loaded templates once everything
    is loaded, and there are none before. *)
Definition previews_ready (l : Loader) : Prop :=
  if isLoaded (preloadedData l) then
    ∃ ts, pd_templates (preloadedData l) = Some ts
          ∧ ∀ k, templatePreviews (preloadedData l) !! k
                 = if decide (k ∈ id <$> ts)
                   then Some (getTemplatePreviewUrl k) else None
  else templatePreviews (preloadedData l) = ∅.

End Preloader.

(* ===================================================================== *)
(** * The editor page: raw and processed text *)
(* ===================================================================== *)

(** The editor page ([pages/EditorPage.tsx]): the cells behind the
    "Fix Formatting" / "Show Raw" toggle, lines 26-83, 195-235, 434-452
    and 506-515. *)
Module Editor.
Import Js.

Definition line_feed : string := String (ascii_of_nat 10) EmptyString.

Fixpoint unlines (lines : list string) : string :=
  match lines with
  | [] => EmptyString
  | [l] => l
  | l :: rest => l +:+ line_feed +:+ unlines rest
  end.

(** The document [latexCode] starts with, lines 26-53. *)
Definition default_document : string :=
  unlines
    [
     "\documentclass[a4paper,10pt]{article}";
     "\usepackage[utf8]{inputenc}";
     "\usepackage{geometry}";
     "\geometry{a4paper, margin=1in}";
     "";
     "\begin{document}";
     "";
     "\section*{John Doe}";
     "\textbf{Email:} john.doe@email.com \\";
     "\textbf{Phone:} +1 (555) 123-4567";
     "";
     "\section*{Experience}";
     "\textbf{Software Engineer} - Tech Company \\";
     "\textit{2020 - Present}";
     "\begin{itemize}";
     "  \item Developed web applications using React and Node.js";
     "  \item Collaborated with cross-functional teams";
     "  \item Improved performance by 40\%";
     "\end{itemize}";
     "";
     "\section*{Education}";
     "\textbf{Bachelor of Science in Computer Science} \\";
     "University Name, 2016 - 2020";
     "";
     "\section*{Skills}";
     "JavaScript, TypeScript, React, Node.js, Python, SQL";
     "";
     "\end{document}"
    ].

(** The navigation state the page is opened with. *)
Record NavState := {
  nav_rawLatexCode : option string;
  nav_processedLatexCode : option string;
  nav_latexCode : option string;
}.

Record EditorState := {
  latexCode : string;
  rawLatexCode : string;
  processedLatexCode : option string;
  isShowingRaw : bool;
  isPreprocessing : bool;
  compilationError : option string;
}.

(** In the raw view the text area holds the raw text. *)
Definition raw_shown (st : EditorState) : Prop :=
  isShowingRaw st = true → latexCode st = rawLatexCode st.

(** A string that is there and truthy, that is, not empty. *)
Definition truthy_text (o : option string) : option string :=
  match o with
  | Some s => if decide (s = EmptyString) then None else Some s
  | None => None
  end.

(** The [useState] defaults, lines 26-59. *)
Definition default_state : EditorState :=
  {| latexCode := default_document; rawLatexCode := EmptyString;
     processedLatexCode := None; isShowingRaw := true;
     isPreprocessing := false; compilationError := None |}.

(** The effect of lines 69-83 on the defaults. *)
Definition init_editor (nav : option NavState) : EditorState :=
  match nav ≫= (λ n, truthy_text (nav_rawLatexCode n)) with
  | Some raw =>
      {| latexCode := raw; rawLatexCode := raw;
         processedLatexCode :=
           nav ≫= (λ n, truthy_text (nav_processedLatexCode n));
         isShowingRaw := true; isPreprocessing := false;
         compilationError := None |}
  | None =>
      match nav ≫= (λ n, truthy_text (nav_latexCode n)) with
      | Some code =>
          {| latexCode := code; rawLatexCode := code;
             processedLatexCode := None; isShowingRaw := true;
             isPreprocessing := false; compilationError := None |}
      | None => default_state
      end
  end.

(** The body of [/api/preprocess-latex] once cast to its type, and the
    server behind [preprocessLatex]. *)
Record PreprocessData := { processedLatex : string }.

Class Preprocessor := {
  preprocess_call : string → Completion (Api.ApiResponse PreprocessData);
}.

(** The [onChange] handler of the text area, lines 506-515. *)
Definition handleEdit (newValue : string) (st : EditorState) : EditorState :=
  if isShowingRaw st then
    {| latexCode := newValue; rawLatexCode := newValue;
       processedLatexCode := None; isShowingRaw := true;
       isPreprocessing := isPreprocessing st;
       compilationError := compilationError st |}
  else
    {| latexCode := newValue; rawLatexCode := rawLatexCode st;
       processedLatexCode := processedLatexCode st; isShowingRaw := false;
       isPreprocessing := isPreprocessing st;
       compilationError := compilationError st |}.

(** [handleToggleFormatting], lines 195-235, from the click to the point
    where it returns or waits for [preprocessLatex]: the cells it has
    written by then and, when it waits, the text it has sent. The function
    has no guard of its own; the button that calls it takes no pointer
    events while [isPreprocessing] is set (line 448). *)
Definition handleToggleFormatting (st : EditorState)
    : EditorState * option string :=
  if isShowingRaw st then
    match truthy_text (processedLatexCode st) with
    | Some processed =>
        ({| latexCode := processed; rawLatexCode := rawLatexCode st;
            processedLatexCode := processedLatexCode st;
            isShowingRaw := false; isPreprocessing := isPreprocessing st;
            compilationError := compilationError st |}, None)
    | None =>
        ({| latexCode := latexCode st; rawLatexCode := rawLatexCode st;
            processedLatexCode := processedLatexCode st;
            isShowingRaw := true; isPreprocessing := true;
            compilationError := None |}, Some (latexCode st))
    end
  else
    ({| latexCode := rawLatexCode st; rawLatexCode := rawLatexCode st;
        processedLatexCode := processedLatexCode st; isShowingRaw := true;
        isPreprocessing := isPreprocessing st;
        compilationError := compilationError st |}, None).

(** [handleToggleFormatting], lines 209-227, from the point where the
    awaited call completes with [answer]. The setters it calls take their
    values from the answer alone, so they apply to the cells as they are
    by then, [st], whatever was typed while the request was under way. *)
Definition handleToggleFormatting_resumed
    (answer : Completion (Api.ApiResponse PreprocessData))
    (st : EditorState) : EditorState :=
  let failed (message : string) :=
    {| latexCode := latexCode st; rawLatexCode := rawLatexCode st;
       processedLatexCode := processedLatexCode st;
       isShowingRaw := isShowingRaw st; isPreprocessing := false;
       compilationError := Some message |} in
  match answer with
  | Normal result =>
      if Api.success result then
        match Api.data result with
        | Some d =>
            {| latexCode := processedLatex d;
               rawLatexCode := rawLatexCode st;
               processedLatexCode := Some (processedLatex d);
               isShowingRaw := false; isPreprocessing := false;
               compilationError := compilationError st |}
        | None =>
            failed "Cannot read properties of undefined (reading 'processedLatex')"
        end
      else
        failed (Page.message_or (Api.error result) "Preprocessing failed")
  | Throw t => failed (Page.thrown_message t)
  end.

(** The other writers of these cells, [handleCompile], [handleDownloadPDF]
    and the PDF viewer, write [compilationError] only (lines 99, 120, 125,
    146, 173, 178 and 627). *)
Definition setCompilationError (e : option string) (st : EditorState)
    : EditorState :=
  {| latexCode := latexCode st; rawLatexCode := rawLatexCode st;
     processedLatexCode := processedLatexCode st;
     isShowingRaw := isShowingRaw st; isPreprocessing := isPreprocessing st;
     compilationError := e |}.

(** The page while it runs: its cells, and the texts of the
    [preprocessLatex] requests that are sent and not answered yet, the
    oldest first. *)
Record Live := {
  cells : EditorState;
  in_flight : list string;
}.

Definition opened (nav : option NavState) : Live :=
  {| cells := init_editor nav; in_flight := [] |}.

(** What happens to the page: the text area changes, the toggle button is
    activated, the request at position [n] of those under way is
    answered, another handler reports or clears an error. The text area
    is never disabled, so an edit can come between a click and its
    answer. *)
Inductive EditorEvent :=
| Edited (newValue : string)
| ToggleFormatting
| Answered (n : nat)
| ErrorSet (e : option string).

Section WithPreprocessor.
Context `{Preprocessor}.

Definition editor_step (l : Live) (ev : EditorEvent) : Live :=
  match ev with
  | Edited v => {| cells := handleEdit v (cells l); in_flight := in_flight l |}
  | ToggleFormatting =>
      let r := handleToggleFormatting (cells l) in
      {| cells := r.1; in_flight := in_flight l ++ option_list r.2 |}
  | Answered n =>
      match in_flight l !! n with
      | Some code =>
          {| cells :=
               handleToggleFormatting_resumed (preprocess_call code) (cells l);
             in_flight := delete n (in_flight l) |}
      | None => l
      end
  | ErrorSet e =>
      {| cells := setCompilationError e (cells l); in_flight := in_flight l |}
  end.

Definition editor_run (l : Live) (evs : list EditorEvent) : Live :=
  foldl editor_step l evs.

(** No edit of the run arrives while a request is under way. *)
Fixpoint quiet (l : Live) (evs : list EditorEvent) : Prop :=
  match evs with
  | [] => True
  | ev :: rest =>
      match ev with
      | Edited _ => in_flight l = []
      | _ => True
      end
      ∧ quiet (editor_step l ev) rest
  end.

(** The cached processed text, when there is one, is the one the page was
    opened with, for a raw text that has not been edited since, or the
    answer of the server for the raw text the page holds. *)
Definition cache_coherent (nav : option NavState) (st : EditorState) : Prop :=
  ∀ processed,
    truthy_text (processedLatexCode st) = Some processed →
    (rawLatexCode st = rawLatexCode (init_editor nav)
     ∧ processedLatexCode (init_editor nav) = Some processed)
    ∨ (∃ result,
         preprocess_call (rawLatexCode st) = Normal result
         ∧ Api.success result = true
         ∧ Api.data result = Some {| processedLatex := processed |}).

(** What holds along a run in which no edit arrives while a request is
    under way: the raw view shows the raw text, every request under way
    was sent for the raw text the page holds, and the cache is not
    stale. *)
Definition settled (nav : option NavState) (l : Live) : Prop :=
  raw_shown (cells l)
  ∧ Forall (λ code, code = rawLatexCode (cells l)) (in_flight l)
  ∧ cache_coherent nav (cells l).

(** The server answers a request for [code] with the processed text
    [processed]. *)
Definition answers (code processed : string) : Prop :=
  ∃ result,
    preprocess_call code = Normal result
    ∧ Api.success result = true
    ∧ Api.data result = Some {| processedLatex := processed |}.
End WithPreprocessor.

End Editor.

(* ===================================================================== *)
(** * More worked data *)
(* ===================================================================== *)

Module MoreSamples.
Import Js Model Page.

(** An init server that answers with two templates, and one that answers
    with a failure. *)
Definition server_up : Preloader.InitServer :=
  {| Preloader.init_answer := λ _,
       Normal {| Api.success := true;
                 Api.data :=
                   Some {| Preloader.providers :=
                             {["OpenAI" := ["gpt-4.1"]]};
                           Preloader.templates :=
                             [ {| Preloader.id := "ATS";
                                  Preloader.template_name := "ATS" |};
                               {| Preloader.id := "Modern";
                                  Preloader.template_name := "Modern" |} ] |};
                 Api.error := None |} |}.

Definition server_down : Preloader.InitServer :=
  {| Preloader.init_answer := λ _,
       Normal (Api.failure (Api.error_object "network_error" "down")) |}.

(** A preprocessing server that puts a comment line in front. *)
Definition fixer : Editor.Preprocessor :=
  {| Editor.preprocess_call := λ code,
       Normal {| Api.success := true;
                 Api.data := Some {| Editor.processedLatex := "% fixed " +:+ code |};
                 Api.error := None |} |}.

Definition opened_with_raw : option Editor.NavState :=
  Some {| Editor.nav_rawLatexCode := Some "\documentclass{article}";
          Editor.nav_processedLatexCode := None;
          Editor.nav_latexCode := None |}.



Definition saved_config : Config.UserConfig :=
  {| Config.selectedProvider := "OpenAI";
     Config.selectedModel := "gpt-4.1";
     Config.apiKey := "sk-test" |}.

Definition echo_body : list (string * Json) :=
  [("success", JBool true); ("config", Config.save_payload saved_config)].

(** A server that answers every request, with status 200, with the saved
    configuration under the names of the back end. *)
Definition net_echo : Config.PlainNetwork :=
  {| Config.fetch_plain := λ _ _,
       Normal {| Api.status := 200; Api.statusText := "OK";
                 Api.json := Normal (JObject echo_body) |} |}.

Definition resume_file : Upload.File :=
  {| Upload.file_name := "resume.pdf"; Upload.file_size := 52000 |}.

(** An upload server that refuses every file with status 413 and an
    empty JSON object. *)
Definition net_too_large : Upload.FormNetwork :=
  {| Upload.fetch_form := λ _ _ _,
       Normal {| Api.status := 413; Api.statusText := "Payload Too Large";
                 Api.json := Normal (JObject []) |} |}.

End MoreSamples.

(* ===================================================================== *)
(** * Facts about the section key *)
(* ===================================================================== *)

Module KeyFacts.
Import Key.

Lemma underscore_not_az09 : not_az09 underscore = true.
Proof. reflexivity. Qed.

Lemma is_underscore_true c : is_underscore c = true ↔ c = underscore.
Proof. unfold is_underscore. case_decide; naive_solver. Qed.

Lemma skip_run_shorter cls l : (length (skip_run cls l) ≤ length l)%nat.
Proof.
  induction l as [|c r IH]; simpl; [lia|].
  destruct (cls c); simpl; lia.
Qed.

(** Behind a greedy run the text is over, or starts outside the class. *)
Lemma skip_run_head cls l :
  skip_run cls l = [] ∨ ∃ d r, skip_run cls l = d :: r ∧ cls d = false.
Proof.
  induction l as [|c r IH]; simpl; [by left|].
  destruct (cls c) eqn:Hc; [done|]. right. by exists c, r.
Qed.

Lemma runs_cons c r :
  ∃ run rs, runs (c :: r) = (not_az09 c, c :: run) :: rs
            ∧ match runs r with
              | (b, run') :: rs' =>
                  if Bool.eqb b (not_az09 c) then run = run' ∧ rs = rs'
                  else run = [] ∧ rs = runs r
              | [] => run = [] ∧ rs = []
              end.
Proof.
  simpl. destruct (runs r) as [|[b run'] rs'] eqn:Hr.
  - by exists [], [].
  - destruct (Bool.eqb b (not_az09 c)) eqn:Hb.
    + apply Bool.eqb_prop in Hb as ->. by exists run', rs'.
    + by exists [], ((b, run') :: rs').
Qed.

(** The tag of the first run is the class of the first character. *)
Lemma runs_first c r :
  ∃ run rs, runs (c :: r) = (not_az09 c, run) :: rs.
Proof. destruct (runs_cons c r) as (run & rs & -> & _). eauto. Qed.

Lemma collapse_cons_in c r :
  not_az09 c = false → collapse_runs (c :: r) = c :: collapse_runs r.
Proof.
  intros Hc. unfold collapse_runs. simpl.
  destruct r as [|d r']; [by rewrite Hc|].
  destruct (runs_first d r') as (run & rs & ->).
  rewrite Hc. destruct (not_az09 d); simpl; by rewrite ?Hc.
Qed.

Lemma collapse_cons_out c r :
  not_az09 c = true →
  collapse_runs (c :: r) = underscore :: collapse_runs (skip_run not_az09 r).
Proof.
  intros Hc. induction r as [|d r' IH] in c, Hc |- *.
  - unfold collapse_runs. simpl. by rewrite Hc.
  - simpl skip_run. destruct (not_az09 d) eqn:Hd.
    + rewrite <-(IH d Hd). unfold collapse_runs.
      change (runs (c :: d :: r')) with
        (match runs (d :: r') with
         | (b, run) :: rs =>
             if Bool.eqb b (not_az09 c) then (b, c :: run) :: rs
             else (not_az09 c, [c]) :: (b, run) :: rs
         | [] => [(not_az09 c, [c])]
         end).
      destruct (runs_first d r') as (run & rs & ->).
      rewrite Hc, Hd. simpl. done.
    + unfold collapse_runs.
      change (runs (c :: d :: r')) with
        (match runs (d :: r') with
         | (b, run) :: rs =>
             if Bool.eqb b (not_az09 c) then (b, c :: run) :: rs
             else (not_az09 c, [c]) :: (b, run) :: rs
         | [] => [(not_az09 c, [c])]
         end).
      destruct (runs_first d r') as (run & rs & ->).
      rewrite Hc, Hd. simpl. done.
Qed.

(** The global replacement of the code writes what the collapsing of the
    maximal runs writes. *)
Lemma replace_runs_collapse l :
  replace_runs not_az09 [underscore] l = collapse_runs l.
Proof.
  remember (length l) as n eqn:Hn.
  revert l Hn. induction (lt_wf n) as [n _ IH]. intros l ->.
  destruct l as [|c r]; [done|].
  simp replace_runs. destruct (not_az09 c) eqn:Hc.
  - rewrite collapse_cons_out by done. simpl. f_equal.
    eapply IH; [|done]. pose proof (skip_run_shorter not_az09 r). simpl. lia.
  - rewrite collapse_cons_in by done. f_equal.
    eapply IH; [|done]. simpl. lia.
Qed.

(** After the collapse no two underscores are next to each other. *)
Lemma collapse_no_double l l1 l2 :
  collapse_runs l ≠ l1 ++ underscore :: underscore :: l2.
Proof.
  remember (length l) as n eqn:Hn.
  revert l l1 Hn. induction (lt_wf n) as [n _ IH]. intros l l1 ->.
  destruct l as [|c r].
  - by destruct l1.
  - destruct (not_az09 c) eqn:Hc.
    + rewrite collapse_cons_out by done.
      destruct l1 as [|x l1]; simpl; intros Heq.
      * injection Heq as Heq.
        destruct (skip_run_head not_az09 r) as [Hnil|(d & r' & Hd & Hcls)].
        { by rewrite Hnil in Heq. }
        rewrite Hd, collapse_cons_in in Heq by done.
        injection Heq as Hd' _. subst d.
        by rewrite underscore_not_az09 in Hcls.
      * injection Heq as _ Heq. eapply IH; [|done|exact Heq].
        pose proof (skip_run_shorter not_az09 r). simpl. lia.
    + rewrite collapse_cons_in by done.
      destruct l1 as [|x l1]; simpl; intros Heq.
      * injection Heq as Hx _. subst c.
        by rewrite underscore_not_az09 in Hc.
      * injection Heq as _ Heq. eapply IH; [|done|exact Heq]. simpl. lia.
Qed.

Lemma strip_last_snoc y c :
  strip_last_underscore (y ++ [c])
  = if is_underscore c then y else y ++ [c].
Proof.
  induction y as [|a y IH]; simpl; [done|].
  rewrite IH. destruct y; simpl; by destruct (is_underscore c).
Qed.

Lemma drop_leading_id l :
  (∀ r, l ≠ underscore :: r) → drop_leading_underscores l = l.
Proof.
  intros Hl. destruct l as [|c r]; simpl; [done|].
  destruct (is_underscore c) eqn:Hc; [|done].
  apply is_underscore_true in Hc as ->. by destruct (Hl r).
Qed.

(** On a text without doubled underscores, removing one underscore at the
    end is removing all of them. *)
Lemma strip_last_trim x :
  (∀ l1 l2, x ≠ l1 ++ underscore :: underscore :: l2) →
  strip_last_underscore x = rev (drop_leading_underscores (rev x)).
Proof.
  intros Hx. destruct x as [|c y _] using rev_ind; [done|].
  rewrite strip_last_snoc, rev_unit. simpl.
  destruct (is_underscore c) eqn:Hc; [|simpl; by rewrite rev_involutive].
  apply is_underscore_true in Hc as ->.
  rewrite drop_leading_id; [by rewrite rev_involutive|].
  intros r Hr. apply (f_equal (@rev ascii)) in Hr.
  rewrite rev_involutive in Hr. simpl in Hr. subst y.
  apply (Hx (rev r) []). by rewrite <-app_assoc.
Qed.

Lemma strip_edge_trim l :
  (∀ l1 l2, l ≠ l1 ++ underscore :: underscore :: l2) →
  strip_edge_underscores l = trim_underscores l.
Proof.
  intros Hl. unfold strip_edge_underscores, trim_underscores.
  destruct l as [|c r]; [done|]. simpl.
  destruct (is_underscore c) eqn:Hc.
  - apply is_underscore_true in Hc as ->.
    rewrite (drop_leading_id r).
    + apply strip_last_trim. intros l1 l2 ->.
      by apply (Hl (underscore :: l1) l2).
    + intros r' ->. by apply (Hl [] r').
  - apply (strip_last_trim (c :: r)), Hl.
Qed.

End KeyFacts.

Example normalizedTitle_sample :
  @Key.normalizedTitle ascii_host "  Work Experience & Skills!! "
  = "work_experience_skills".
Proof. reflexivity. Qed.

Example normalizedTitle_only_symbols :
  @Key.normalizedTitle ascii_host "***" = EmptyString.
Proof. reflexivity. Qed.

(** C4. The key the page computes from a section title, to match the
    entries of [section_info] with the keys of the metadata and of the
    selections, is the title lowercased, with every maximal run of
    characters outside [a-z0-9] replaced by one underscore and the
    underscores at both ends removed; the lookup of the subsection titles
    and the position used for sorting both go by this key. *)
Theorem section_key_is_normalised_title `{HostString} :
  (∀ t : string, Key.normalizedTitle t = Key.spec_key t)
  ∧ (∀ (p : Model.ParsedData) (k : string),
       Page.getSubsectionTitles (Some p) k
       = match list_find (λ s, Key.spec_key (Model.title s) = k)
                 (Model.section_info p) with
         | Some (_, s) => Model.subsections s
         | None => []
         end)
  ∧ (∀ (p : Model.ParsedData) (k : string),
       Page.sort_position p k
       = match list_find (λ s, Key.spec_key (Model.title s) = k)
                 (Model.section_info p) with
         | Some (i, _) => Z.of_nat i
         | None => 999
         end).
Proof.
  assert (Hkey : ∀ t : string, Key.normalizedTitle t = Key.spec_key t).
  { intros t. unfold Key.normalizedTitle, Key.spec_key. f_equal.
    rewrite KeyFacts.replace_runs_collapse.
    apply KeyFacts.strip_edge_trim, KeyFacts.collapse_no_double. }
  split; [exact Hkey|].
  split; intros p k; unfold Page.getSubsectionTitles, Page.sort_position;
    erewrite list_find_ext; try reflexivity;
    intros s; simpl; by rewrite Hkey.
Qed.

(* ===================================================================== *)
(** * Facts about the selections of the page *)
(* ===================================================================== *)

Module PageFacts.
Import Js Model Page.

Lemma init_entry_header acc e : init_entry acc e !! "header" = acc !! "header".
Proof.
  unfold init_entry. case_decide as Hk; [done|].
  by rewrite lookup_insert_ne.
Qed.

Lemma fold_init_lookup (l : list (string * SectionMetadata))
    (acc : gmap string Selection) (k : string) :
  NoDup l.*1 →
  foldl init_entry acc l !! k
  = if decide (k = "header") then acc !! k
    else match (list_to_map l : gmap string SectionMetadata) !! k with
         | Some m => Some (initial_selection m)
         | None => acc !! k
         end.
Proof.
  induction l as [|[k' m'] l IH] in acc |- *; intros Hnd; simpl.
  - by case_decide.
  - apply NoDup_cons in Hnd as [Hk' Hnd]. rewrite IH by done.
    case_decide as Hk; [subst k; apply init_entry_header|].
    destruct (decide (k = k')) as [->|Hne].
    + rewrite lookup_insert_eq.
      rewrite (not_elem_of_list_to_map_1 _ k') by done.
      unfold init_entry. simpl. rewrite decide_False by done.
      by rewrite lookup_insert_eq.
    + rewrite lookup_insert_ne by done.
      destruct (list_to_map l !! k); [done|].
      unfold init_entry. simpl. case_decide; [done|].
      by rewrite lookup_insert_ne.
Qed.

(** The initial selections, key by key. *)
Lemma initialSelections_lookup (md : gmap string SectionMetadata) k :
  initialSelections md !! k
  = if decide (k = "header") then None else initial_selection <$> md !! k.
Proof.
  unfold initialSelections.
  rewrite fold_init_lookup by apply NoDup_fst_map_to_list.
  rewrite list_to_map_to_list, lookup_empty.
  case_decide; [done|]. by destruct (md !! k).
Qed.

Lemma initialSelections_distinct md : items_distinct (initialSelections md).
Proof.
  intros k. rewrite initialSelections_lookup.
  case_decide; [constructor|].
  destruct (md !! k) as [m|]; simpl; [|constructor].
  unfold initial_selection. destruct (type m); simpl; [constructor|].
  apply NoDup_seqZ.
Qed.

Lemma handleItemChange_lookup s k i b k' :
  handleItemChange s k i b !! k'
  = if decide (k = k') then
      let its := items_of (s !! k) in
      let its' := if b then (if includes its i then its else its ++ [i])
                  else filter (λ j, j ≠ i) its in
      Some (SelItems (bool_decide (0 < length its')%nat) its')
    else s !! k'.
Proof.
  unfold handleItemChange. case_decide as Hk.
  - subst. by rewrite lookup_insert_eq.
  - by rewrite lookup_insert_ne.
Qed.

Lemma handleItemChange_distinct s k i b :
  items_distinct s → items_distinct (handleItemChange s k i b).
Proof.
  intros Hs k'. rewrite handleItemChange_lookup.
  case_decide; [|apply Hs]. simpl. specialize (Hs k).
  destruct b.
  - unfold includes. case_bool_decide as Hin; [done|].
    apply NoDup_app. split_and!; [done| |apply NoDup_singleton].
    intros x Hx ->%list_elem_of_singleton. done.
  - by apply NoDup_filter.
Qed.

Lemma handleSectionChange_distinct md s k b s' :
  handleSectionChange md s k b = Normal s' →
  items_distinct s → items_distinct s'.
Proof.
  unfold handleSectionChange. intros Hh Hs k'.
  destruct (md !! k) as [m|]; [|done].
  destruct (type m); injection Hh as <-.
  - destruct (decide (k = k')) as [->|].
    + rewrite lookup_insert_eq. constructor.
    + rewrite lookup_insert_ne by done. apply Hs.
  - destruct (decide (k = k')) as [->|].
    + rewrite lookup_insert_eq. simpl. destruct b; [apply Hs|constructor].
    + rewrite lookup_insert_ne by done. apply Hs.
Qed.

Lemma dispatch_distinct st ev :
  items_distinct (st_selections st) →
  items_distinct (st_selections (dispatch st ev)).
Proof.
  intros Hs. destruct ev as [k b|k i b]; simpl.
  - destruct (handleSectionChange _ _ k b) as [s'|] eqn:Hh; [|done].
    simpl. by eapply handleSectionChange_distinct.
  - by apply handleItemChange_distinct.
Qed.

Lemma run_distinct st evs :
  items_distinct (st_selections st) →
  items_distinct (st_selections (run st evs)).
Proof.
  unfold run. induction evs as [|ev evs IH] in st |- *; simpl; [done|].
  intros Hs. by apply IH, dispatch_distinct.
Qed.

End PageFacts.

(* ===================================================================== *)
(** * The selections of the page: theorems *)
(* ===================================================================== *)

(** C5. Right after a successful [parseSections] call the selections hold
    exactly the metadata keys other than [header]; a key of type [simple]
    is mapped to [true], every other key to [{enabled: true, items: [0,
    ..., item_count-1]}], with no items when [item_count] is absent; and
    [header] is not among the entries the page offers for selection. *)
Theorem initial_selections_fully_selected
    (r : Api.ApiResponse Page.ParseResult) (d : Page.ParseResult)
    (st : Page.PageState) :
  Api.success r = true →
  Api.data r = Some d →
  let s := Page.st_selections (Page.parseLatexSections (Js.Normal r) st) in
  dom s = dom (Page.metadata d) ∖ {["header"]}
  ∧ (∀ k m, k ≠ "header" → Page.metadata d !! k = Some m →
       s !! k = Some match Model.type m, Model.item_count m with
                     | Model.simple, _ => Model.SelBool true
                     | Model.complex, Some n => Model.SelItems true (seqZ 0 n)
                     | Model.complex, None => Model.SelItems true []
                     end)
  ∧ "header" ∉ (Page.selectable (Page.metadata d)).*1.
Proof.
  intros Hok Hd. unfold Page.parseLatexSections. rewrite Hok, Hd. simpl.
  split_and!.
  - apply set_eq. intros k.
    rewrite elem_of_difference, !elem_of_dom, not_elem_of_singleton.
    rewrite PageFacts.initialSelections_lookup.
    case_decide as Hk.
    + split; [by intros []|]. by intros [_ []].
    + rewrite fmap_is_Some. tauto.
  - intros k m Hk Hm. rewrite PageFacts.initialSelections_lookup.
    rewrite decide_False, Hm by done. simpl. f_equal.
    unfold Page.initial_selection, Page.index_range.
    destruct (Model.type m), (Model.item_count m); try done.
  - unfold Page.selectable. intros Hin.
    apply list_elem_of_fmap in Hin as ([k m] & Hk & Hin).
    apply list_elem_of_filter in Hin as [Hne _]. simpl in *. by subst.
Qed.

Lemma initial_selections_fully_selected_witness :
  Api.success Sample.sample_response = true
  ∧ Api.data Sample.sample_response = Some Sample.sample_result
  ∧ Page.st_selections Sample.sample_page !! "education"
    = Some (Model.SelItems true [0; 1])
  ∧ Page.st_selections Sample.sample_page !! "experience"
    = Some (Model.SelItems true [])
  ∧ Page.st_selections Sample.sample_page !! "summary"
    = Some (Model.SelBool true)
  ∧ Page.st_selections Sample.sample_page !! "header" = None.
Proof.
  pose proof (initial_selections_fully_selected Sample.sample_response
                Sample.sample_result Page.initial_state eq_refl eq_refl)
    as (Hdom & Hsel & _).
  split; [reflexivity|]. split; [reflexivity|]. split_and!.
  - apply (Hsel "education" (Sample.meta Model.complex "Education" (Some 2)));
      [discriminate|reflexivity].
  - apply (Hsel "experience" (Sample.meta Model.complex "Experience" None));
      [discriminate|reflexivity].
  - apply (Hsel "summary" (Sample.meta Model.simple "Summary" None));
      [discriminate|reflexivity].
  - apply (not_elem_of_dom (D := gset string)). fold Sample.sample_page in Hdom.
    rewrite Hdom. apply not_elem_of_difference. right.
    by apply elem_of_singleton.
Defined.

(** C8. For a key whose metadata type is complex, unchecking the section
    stores [{enabled: false, items: []}] and checking it again stores
    [{enabled: true, items: []}]: the other keys are as before, the items
    that were selected are not brought back, and whenever some item was
    selected before, the selections after the round trip differ from the
    ones before it. *)
Theorem section_disable_enable_loses_items
    (md : gmap string Model.SectionMetadata)
    (s : gmap string Model.Selection) (k : string)
    (m : Model.SectionMetadata) :
  md !! k = Some m →
  Model.type m = Model.complex →
  ∃ s1 s2,
    Page.handleSectionChange md s k false = Js.Normal s1
    ∧ s1 !! k = Some (Model.SelItems false [])
    ∧ Page.handleSectionChange md s1 k true = Js.Normal s2
    ∧ s2 !! k = Some (Model.SelItems true [])
    ∧ (∀ k', k' ≠ k → s2 !! k' = s !! k')
    ∧ (Page.items_of (s !! k) ≠ [] → s2 ≠ s).
Proof.
  intros Hm Hty. unfold Page.handleSectionChange. rewrite Hm, Hty.
  eexists _, _. split; [reflexivity|].
  split; [by rewrite lookup_insert_eq|].
  split; [reflexivity|].
  rewrite !lookup_insert_eq. simpl.
  split; [done|]. split.
  - intros k' Hk'. by rewrite !lookup_insert_ne.
  - intros Hits Heq. apply Hits. rewrite <-Heq.
    by rewrite lookup_insert_eq.
Qed.

Lemma section_disable_enable_loses_items_witness :
  Sample.sample_metadata !! "education"
    = Some (Sample.meta Model.complex "Education" (Some 2))
  ∧ ∃ s1 s2,
      Page.handleSectionChange Sample.sample_metadata
        (Page.st_selections Sample.sample_page) "education" false
      = Js.Normal s1
      ∧ Page.handleSectionChange Sample.sample_metadata s1 "education" true
        = Js.Normal s2
      ∧ s2 !! "education" = Some (Model.SelItems true [])
      ∧ s2 ≠ Page.st_selections Sample.sample_page.
Proof.
  split; [reflexivity|].
  destruct (section_disable_enable_loses_items Sample.sample_metadata
              (Page.st_selections Sample.sample_page) "education"
              (Sample.meta Model.complex "Education" (Some 2))
              eq_refl eq_refl)
    as (s1 & s2 & H1 & _ & H2 & Hk & _ & Hne).
  exists s1, s2. split_and!; [exact H1|exact H2|exact Hk|].
  apply Hne. vm_compute. discriminate.
Defined.

(** C9. From the selections set up by a successful parse, whatever
    sequence of section and item checkbox events follows, no item
    selection of the page ever lists an index twice. *)
Theorem selection_items_stay_distinct
    (r : Api.ApiResponse Page.ParseResult) (d : Page.ParseResult)
    (st : Page.PageState) (evs : list Page.Event) :
  Api.success r = true →
  Api.data r = Some d →
  ∀ k enabled its,
    Page.st_selections
      (Page.run (Page.parseLatexSections (Js.Normal r) st) evs) !! k
    = Some (Model.SelItems enabled its) →
    NoDup its.
Proof.
  intros Hok Hd k enabled its Hk.
  assert (Hall : Page.items_distinct
            (Page.st_selections
               (Page.run (Page.parseLatexSections (Js.Normal r) st) evs))).
  { apply PageFacts.run_distinct. unfold Page.parseLatexSections.
    rewrite Hok, Hd. simpl. apply PageFacts.initialSelections_distinct. }
  specialize (Hall k). by rewrite Hk in Hall.
Qed.

Lemma selection_items_stay_distinct_witness :
  Api.success Sample.sample_response = true
  ∧ Api.data Sample.sample_response = Some Sample.sample_result
  ∧ Page.st_selections
      (Page.run Sample.sample_page
         [Page.ItemToggled "education" 0 false;
          Page.SectionToggled "education" true;
          Page.ItemToggled "education" 5 true;
          Page.ItemToggled "education" 5 true;
          Page.ItemToggled "education" 0 true]) !! "education"
    = Some (Model.SelItems true [1; 5; 0])
  ∧ NoDup [1; 5; 0].
Proof.
  split; [reflexivity|]. split; [reflexivity|]. split; [reflexivity|].
  eapply (selection_items_stay_distinct Sample.sample_response
            Sample.sample_result Page.initial_state
            [Page.ItemToggled "education" 0 false;
             Page.SectionToggled "education" true;
             Page.ItemToggled "education" 5 true;
             Page.ItemToggled "education" 5 true;
             Page.ItemToggled "education" 0 true]
            eq_refl eq_refl "education" true).
  reflexivity.
Defined.

(* ===================================================================== *)
(** * The API wrapper: theorems *)
(* ===================================================================== *)

Module ApiFacts.
Import Js Api.

(** The [catch] block always yields a failure response. *)
Lemma on_exception_fails t : success (on_exception t) = false.
Proof. destruct t as [name msg|]; simpl; [case_decide|]; done. Qed.

Lemma apiRequest_total `{Network} endpoint options timeout :
  ∃ r, apiRequest endpoint options timeout = Normal r.
Proof.
  unfold apiRequest, try_catch.
  destruct (request_body endpoint options timeout); eauto.
Qed.

(** Closes a goal about a request whose [fetch] and [json] completions
    are known, by comparing them with the ones assumed. *)
Ltac settle :=
  try (split; [|intros (? & ? & ? & ? & ? & ?)]);
  intros;
  repeat match goal with
  | H : Normal _ = Normal _ |- _ => injection H as H; subst
  | H : Throw _ = Throw _ |- _ => injection H as H; subst
  | H : ThrownError _ _ = ThrownError _ _ |- _ => injection H as ? ?; subst
  | H : Normal _ = Throw _ |- _ => discriminate H
  | H : Throw _ = Normal _ |- _ => discriminate H
  end;
  try congruence; try done.

End ApiFacts.

(** C10, as stated, fails: a response with status 200 whose body is not
    JSON text is ok, yet [parseSections] answers with [success = false]
    and the error type [network_error]. *)
Lemma ok_response_without_json_is_failure :
  ∃ response r,
    @Api.fetch Sample.net_not_json
      (Api.API_BASE_URL +:+ "/api/parse-sections")
      (Api.request_init
         (Api.post (Js.JObject [("latexCode", Js.JString "x")])))
      Api.REQUEST_TIMEOUT
    = Js.Normal response
    ∧ Api.ok response = true
    ∧ @Api.parseSections Sample.net_not_json "x" None = Js.Normal r
    ∧ Api.success r = false
    ∧ Api.error_type r = Some "network_error".
Proof. eexists _, _. split_and!; reflexivity. Qed.

(** C10, amended. A request made through [apiRequest], and so each of
    [parseSections], [filterLatex], [compileLatex] and [preprocessLatex],
    always resolves to a response and never throws. The response has
    [success = true], with the parsed body as its data, exactly when the
    HTTP response is ok and its body parses as JSON. It has [success =
    false] with the error type [timeout_error] when the fetch is aborted,
    and with the error type [network_error] when the fetch fails with any
    other error or when reading the body of a response as JSON fails. *)
Theorem api_request_always_resolves `{Api.Network}
    (endpoint : string) (options : Api.RequestInit) (timeout : Z) :
  let fetched :=
    Api.fetch (Api.API_BASE_URL +:+ endpoint) (Api.request_init options)
      timeout in
  (∃ r, Api.apiRequest endpoint options timeout = Js.Normal r
     ∧ (Api.success r = true ↔
          ∃ response v, fetched = Js.Normal response
            ∧ Api.ok response = true
            ∧ Api.json response = Js.Normal v
            ∧ Api.data r = Some v)
     ∧ (∀ msg, fetched = Js.Throw (Js.ThrownError "AbortError" msg) →
          Api.success r = false ∧ Api.error_type r = Some "timeout_error")
     ∧ (∀ name msg, name ≠ "AbortError" →
          fetched = Js.Throw (Js.ThrownError name msg) →
          Api.success r = false ∧ Api.error_type r = Some "network_error")
     ∧ (∀ response name msg, name ≠ "AbortError" →
          fetched = Js.Normal response →
          Api.json response = Js.Throw (Js.ThrownError name msg) →
          Api.success r = false ∧ Api.error_type r = Some "network_error"))
  ∧ (∀ latexCode templateId parsedData selections,
       (∃ r, Api.parseSections latexCode templateId = Js.Normal r)
       ∧ (∃ r, Api.filterLatex parsedData selections = Js.Normal r)
       ∧ (∃ r, Api.compileLatex latexCode = Js.Normal r)
       ∧ (∃ r, Api.preprocessLatex latexCode = Js.Normal r)).
Proof.
  intros fetched. split.
  2: { intros. split_and!; apply ApiFacts.apiRequest_total. }
  unfold Api.apiRequest, Api.request_body. fold fetched.
  destruct fetched as [response|[name msg|]] eqn:Hf; simpl;
    [destruct (Api.json response) as [v|[name msg|]] eqn:Hj; simpl;
       [destruct (Api.ok response) eqn:Hok; simpl;
          [|destruct (Js.member "error" v) as [err|t] eqn:Hm; simpl]|..]|..];
    try case_decide;
    (eexists; split; [reflexivity|]);
    rewrite ?ApiFacts.on_exception_fails; simpl;
    split_and!; ApiFacts.settle.
  exists response, v. by rewrite Hj.
Qed.

Lemma api_request_always_resolves_witness :
  @Api.fetch Sample.net_silent
    (Api.API_BASE_URL +:+ "/api/compile-latex")
    (Api.request_init
       (Api.post (Js.JObject [("latexCode", Js.JString "x")])))
    Api.REQUEST_TIMEOUT
  = Js.Throw (Js.ThrownError "AbortError" "signal is aborted without reason")
  ∧ ∃ r, @Api.compileLatex Sample.net_silent "x" = Js.Normal r
      ∧ Api.success r = false
      ∧ Api.error_type r = Some "timeout_error".
Proof.
  split; [reflexivity|].
  destruct (@api_request_always_resolves Sample.net_silent
              "/api/compile-latex"
              (Api.post (Js.JObject [("latexCode", Js.JString "x")]))
              Api.REQUEST_TIMEOUT)
    as [(r & Hr & _ & Habort & _) _].
  exists r. split; [exact Hr|].
  exact (Habort "signal is aborted without reason" eq_refl).
Defined.

(* ===================================================================== *)
(** * Facts about the assembler and the validator *)
(* ===================================================================== *)

Module EngineFacts.
Import Model Engine.

(** ** Counting braces *)

Lemma scan_counts_positions brace (pre l : list ascii) :
  count_unescaped brace (bool_decide (last pre = Some backslash)) l
  = length (filter (λ i, unescaped_at brace (pre ++ l) i = true)
              (seq (length pre) (length l))).
Proof.
  induction l as [|c r IH] in pre |- *; [done|].
  cbn [count_unescaped length seq].
  replace (bool_decide (c = backslash))
    with (bool_decide (last (pre ++ [c]) = Some backslash)).
  2: { rewrite last_snoc. apply bool_decide_ext. naive_solver. }
  rewrite (IH (pre ++ [c])), <-app_assoc, length_app. simpl.
  replace (length pre + 1)%nat with (S (length pre)) by lia.
  assert (Hhead : unescaped_at brace (pre ++ c :: r) (length pre)
            = bool_decide (c = brace)
              && negb (bool_decide (last pre = Some backslash))).
  { unfold unescaped_at. rewrite list_lookup_middle by done.
    f_equal; [apply bool_decide_ext; naive_solver|]. f_equal.
    apply bool_decide_ext. rewrite last_lookup.
    destruct pre as [|a pre'] using rev_ind.
    - simpl. split; [lia|done].
    - rewrite length_app. simpl.
      replace (pred (length pre' + 1)) with (length pre') by lia.
      rewrite <-app_assoc. simpl. rewrite !list_lookup_middle by done.
      split; [by intros []|]. intros. split; [lia|done]. }
  destruct (unescaped_at brace (pre ++ c :: r) (length pre)) eqn:Hu.
  - rewrite filter_cons_True by done. simpl. by rewrite <-Hhead.
  - rewrite filter_cons_False by (by rewrite Hu). by rewrite <-Hhead.
Qed.

Lemma count_unescaped_positions brace doc :
  count_unescaped brace false (String.list_ascii_of_string doc)
  = unescaped_count brace doc.
Proof. apply (scan_counts_positions brace []). Qed.

(** ** Document order *)

Lemma strictly_sorted (l : list Z) :
  StronglySorted Z.le l → NoDup l → StronglySorted Z.lt l.
Proof.
  induction 1 as [|x l Hl IH Hx]; intros Hnd; constructor.
  - apply IH. by apply NoDup_cons in Hnd as [_ ?].
  - apply NoDup_cons in Hnd as [Hnot _].
    apply Forall_forall. intros y Hy.
    rewrite Forall_forall in Hx. specialize (Hx y Hy).
    assert (x ≠ y) by (by intros ->). lia.
Qed.

Lemma document_order_ascending l : StronglySorted Z.lt (document_order l).
Proof.
  unfold document_order. apply strictly_sorted.
  - apply StronglySorted_merge_sort; apply _.
  - rewrite merge_sort_Permutation. apply NoDup_remove_dups.
Qed.

Lemma document_order_perm l1 l2 :
  l1 ≡ₚ l2 → document_order l1 = document_order l2.
Proof.
  intros Hp. unfold document_order.
  apply (Sorted_unique Z.le).
  - apply Sorted_merge_sort; apply _.
  - apply Sorted_merge_sort; apply _.
  - rewrite !merge_sort_Permutation.
    apply NoDup_Permutation; [apply NoDup_remove_dups..|].
    intros x. rewrite !elem_of_remove_dups. by rewrite Hp.
Qed.

Lemma document_order_elem l x : x ∈ document_order l ↔ x ∈ l.
Proof.
  unfold document_order.
  by rewrite merge_sort_Permutation, elem_of_remove_dups.
Qed.

Lemma seq_ascending a n : StronglySorted lt (seq a n).
Proof.
  induction n as [|n IH] in a |- *; simpl; constructor; [apply IH|].
  apply Forall_forall. intros y Hy%elem_of_seq. lia.
Qed.

Lemma all_indices_ascending b : StronglySorted Z.lt (all_indices b).
Proof.
  unfold all_indices, seqZ.
  apply (StronglySorted_fmap _ lt); [|apply seq_ascending].
  intros x y Hxy. lia.
Qed.

(** ** The decision for one section *)

Lemma choose_ascending b sel e : choose b sel = Some e → ascending e.
Proof.
  unfold choose. intros Hc.
  destruct (has_items b), sel as [[[]|enabled its]|]; simplify_eq; simpl;
    try done; try apply all_indices_ascending.
  destruct (enabled && bool_decide (its ≠ [])); simplify_eq. simpl.
  apply document_order_ascending.
Qed.

Lemma choose_same b (o1 o2 : option Selection) :
  option_Forall2 same_choice o1 o2 → choose b o1 = choose b o2.
Proof.
  intros [a1 a2 Ha|]; [|done].
  destruct a1 as [b1|e1 l1], a2 as [b2|e2 l2]; simpl in Ha;
    try discriminate; [by simplify_eq|].
  destruct Ha as [-> Hp]. unfold choose.
  destruct (has_items b); [|done].
  rewrite (document_order_perm l1 l2 Hp).
  replace (bool_decide (l1 ≠ [])) with (bool_decide (l2 ≠ [])); [done|].
  apply bool_decide_ext. split; intros Hne ->; apply Hne.
  - by apply Permutation_nil.
  - symmetry in Hp. by apply Permutation_nil.
Qed.

Lemma choose_disabled b :
  has_items b = true → choose b (Some (SelItems false [])) = None.
Proof. unfold choose. by intros ->. Qed.

(** ** Entries and maps *)

Lemma same_choice_refl a : same_choice a a.
Proof. by destruct a. Qed.

Lemma reordered_lookup es1 es2 k :
  NoDup es1.*1 → reordered es1 es2 →
  option_Forall2 same_choice
    (selections_of_entries es1 !! k) (selections_of_entries es2 !! k).
Proof.
  intros Hnd (es & Hperm & Hall). unfold selections_of_entries.
  rewrite (list_to_map_proper es1 es) by done. clear Hnd Hperm es1.
  induction Hall as [|[k1 a] [k2 b] es es2 [Hk Hab] _ IH]; simpl in *.
  - rewrite lookup_empty. constructor.
  - subst k2. destruct (decide (k1 = k)) as [->|Hne].
    + rewrite !lookup_insert_eq. by constructor.
    + by rewrite !lookup_insert_ne.
Qed.

Section WithHost.
Context `{HostString}.

Lemma plan_section_same blocks s1 s2 info :
  (∀ k, option_Forall2 same_choice (s1 !! k) (s2 !! k)) →
  plan_section blocks s1 info = plan_section blocks s2 info.
Proof.
  intros Hs. unfold plan_section.
  destruct (sections blocks !! section_key info) as [b|]; [|done]. simpl.
  by rewrite (choose_same b _ _ (Hs (section_key info))).
Qed.

Lemma plan_same p s1 s2 :
  (∀ k, option_Forall2 same_choice (s1 !! k) (s2 !! k)) →
  plan p s1 = plan p s2.
Proof.
  intros Hs. unfold plan.
  induction (section_info p) as [|info l IH]; [done|]. csimpl.
  by rewrite IH, (plan_section_same _ s1 s2 info Hs).
Qed.

Lemma plan_section_key blocks s info e :
  plan_section blocks s info = Some e → em_key e = section_key info.
Proof.
  unfold plan_section. intros He.
  destruct (sections blocks !! section_key info) as [b|]; [|done].
  simpl in He. destruct (choose b _); simpl in He; by simplify_eq.
Qed.

Lemma plan_section_ascending blocks s info e :
  plan_section blocks s info = Some e → ascending (em_what e).
Proof.
  unfold plan_section. intros He.
  destruct (sections blocks !! section_key info) as [b|]; [|done].
  simpl in He. destruct (choose b _) as [w|] eqn:Hc; simpl in He;
    simplify_eq. simpl.
  by eapply choose_ascending.
Qed.

(** The emitted sections follow the order of [section_info]. *)
Lemma plan_keys_in_order p s :
  sublist (em_key <$> plan p s) (section_key <$> section_info p).
Proof.
  unfold plan. induction (section_info p) as [|info l IH]; csimpl.
  - constructor.
  - destruct (plan_section (latex_blocks p) s info) as [e|] eqn:He; csimpl.
    + rewrite (plan_section_key _ _ _ _ He). by constructor.
    + by constructor.
Qed.

Lemma plan_ascending p s : Forall (λ e, ascending (em_what e)) (plan p s).
Proof.
  unfold plan. induction (section_info p) as [|info l IH]; csimpl.
  - constructor.
  - destruct (plan_section (latex_blocks p) s info) as [e|] eqn:He; csimpl;
      [|done].
    constructor; [by eapply plan_section_ascending|done].
Qed.

(** ** The text of the assembled document, piece by piece *)

Lemma append_empty_r (s : string) : s +:+ EmptyString = s.
Proof.
  induction s as [|a s IH]; [done|].
  change (String a (s +:+ EmptyString) = String a s). by rewrite IH.
Qed.

Lemma append_assoc (s t u : string) : (s +:+ t) +:+ u = s +:+ t +:+ u.
Proof.
  induction s as [|a s IH]; [done|].
  change (String a ((s +:+ t) +:+ u) = String a (s +:+ t +:+ u)).
  by rewrite IH.
Qed.

Lemma concat_no_separator (l : list string) :
  String.concat EmptyString l = concat_blocks l.
Proof.
  induction l as [|x l IH]; [done|]. destruct l as [|y l].
  - simpl. by rewrite append_empty_r.
  - change (String.concat EmptyString (x :: y :: l))
      with (x +:+ EmptyString +:+ String.concat EmptyString (y :: l)).
    rewrite IH. reflexivity.
Qed.

Lemma concat_blocks_app (l1 l2 : list string) :
  concat_blocks (l1 ++ l2) = concat_blocks l1 +:+ concat_blocks l2.
Proof.
  induction l1 as [|x l1 IH]; [done|].
  change (x +:+ concat_blocks (l1 ++ l2)
          = (x +:+ concat_blocks l1) +:+ concat_blocks l2).
  by rewrite IH, append_assoc.
Qed.

Lemma join_items_concat (texts : list string) :
  join_items texts = String.concat (newline +:+ newline) texts.
Proof.
  induction texts as [|t r IH]; [done|]. destruct r as [|u r]; [done|].
  change (t +:+ newline +:+ newline +:+ join_items (u :: r)
          = t +:+ (newline +:+ newline)
              +:+ String.concat (newline +:+ newline) (u :: r)).
  rewrite IH. reflexivity.
Qed.

Lemma render_pieces (e : Emitted) :
  render (em_block e) (em_what e) = concat_blocks (emitted_pieces e).
Proof.
  unfold render, emitted_pieces, emitted_items.
  destruct (em_what e) as [|indices]; unfold concat_blocks; simpl;
    rewrite append_empty_r; [done|].
  by rewrite join_items_concat.
Qed.

Lemma rendered_plan_pieces (emitted : list Emitted) :
  concat_blocks ((λ e, render (em_block e) (em_what e)) <$> emitted)
  = concat_blocks (emitted ≫= emitted_pieces).
Proof.
  induction emitted as [|e l IH]; [done|].
  rewrite fmap_cons, bind_cons, concat_blocks_app, <-IH, <-render_pieces.
  done.
Qed.

Lemma assemble_pieces p s :
  assemble p s
  = String.concat EmptyString (document_pieces (latex_blocks p) (plan p s)).
Proof.
  rewrite concat_no_separator. unfold assemble, document_pieces.
  rewrite !concat_blocks_app, <-rendered_plan_pieces.
  unfold concat_blocks at 2 4. simpl. by rewrite !append_empty_r.
Qed.

(** Items taken at indices that go strictly up stand in the order of the
    block. *)
Lemma items_from (l : list string) (indices : list Z) (k : nat) :
  StronglySorted Z.lt indices →
  Forall (λ i, i < 0 ∨ Z.of_nat k ≤ i) indices →
  sublist (omap (item_at l) indices) (drop k l).
Proof.
  intros Hsorted. revert k.
  induction Hsorted as [|i rest Hrest IH Hlt]; intros k Hall.
  - apply sublist_nil_l.
  - apply Forall_cons in Hall as [Hi Hall]. csimpl.
    destruct (item_at l i) as [x|] eqn:Hx; [|by apply IH].
    unfold item_at in Hx. case_decide; [|done].
    assert (Hk : (k ≤ Z.to_nat i)%nat) by lia.
    rewrite <-(take_drop (Z.to_nat i - k) (drop k l)), drop_drop.
    replace (k + (Z.to_nat i - k))%nat with (Z.to_nat i) by lia.
    rewrite (drop_S _ _ _ Hx).
    apply sublist_inserts_l, sublist_skip, IH.
    eapply Forall_impl; [exact Hlt|]. simpl. intros j Hj. lia.
Qed.

Lemma items_in_block_order (l : list string) (indices : list Z) :
  StronglySorted Z.lt indices → sublist (omap (item_at l) indices) l.
Proof.
  intros Hsorted. apply (items_from l indices 0 Hsorted).
  apply Forall_forall. intros i _. lia.
Qed.

Lemma plan_section_in_order blocks s info e :
  plan_section blocks s info = Some e → in_document_order blocks e.
Proof.
  intros He. pose proof (plan_section_ascending _ _ _ _ He) as Hup.
  unfold plan_section in He.
  destruct (sections blocks !! section_key info) as [b|] eqn:Hb; [|done].
  simpl in He. destruct (choose b _) as [w|]; simpl in He; simplify_eq.
  split_and!; [done..|].
  unfold emitted_items. simpl in *. destruct w as [|indices].
  - apply sublist_nil_l.
  - by apply items_in_block_order.
Qed.

Lemma plan_in_document_order p s :
  Forall (in_document_order (latex_blocks p)) (plan p s).
Proof.
  unfold plan. induction (section_info p) as [|info l IH]; csimpl.
  - constructor.
  - destruct (plan_section (latex_blocks p) s info) as [e|] eqn:He; csimpl;
      [|done].
    constructor; [by eapply plan_section_in_order|done].
Qed.

Lemma filter_all {A} (P : A → Prop) `{∀ x, Decision (P x)} (l : list A) :
  Forall P l → filter P l = l.
Proof.
  induction 1 as [|x l Hx _ IH]; [done|].
  by rewrite filter_cons_True, IH.
Qed.

Lemma plan_never_emits p s k :
  (∀ info, section_key info = k →
           plan_section (latex_blocks p) s info = None) →
  ∀ e, e ∈ plan p s → em_key e ≠ k.
Proof.
  intros Hnone e He Hkey. unfold plan in He.
  apply list_elem_of_omap in He as (info & _ & He).
  pose proof (plan_section_key _ _ _ _ He) as Hek.
  rewrite Hnone in He by congruence. done.
Qed.

(** A section that emits nothing can be left out of [section_info], and
    its block out of the [sections] map. *)
Lemma plan_without_section p s k :
  (∀ info, section_key info = k →
           plan_section (latex_blocks p) s info = None) →
  plan p s = plan (without_section k p) s.
Proof.
  intros Hk. unfold plan, without_section. simpl.
  induction (section_info p) as [|info l IH]; [done|]. csimpl.
  destruct (decide (section_key info = k)) as [Heq|Hne].
  - rewrite (Hk info Heq), filter_cons_False by naive_solver. exact IH.
  - rewrite filter_cons_True by done. csimpl. rewrite <-IH. f_equal.
    unfold plan_section. simpl. by rewrite lookup_delete_ne.
Qed.

Lemma assemble_without_section p s k :
  (∀ info, section_key info = k →
           plan_section (latex_blocks p) s info = None) →
  assemble p s = assemble (without_section k p) s.
Proof.
  intros Hk. unfold assemble.
  by rewrite <-(plan_without_section p s k Hk).
Qed.
End WithHost.

End EngineFacts.

(* ===================================================================== *)
(** * The assembler and the validator: theorems *)
(* ===================================================================== *)

(** The example of section 8 of the specification: item 1 of Education,
    then both items of Experience in document order. *)
Example assemble_document_order :
  @Engine.assemble ascii_host Sample.sample_parsed
    (Engine.selections_of_entries
       [("education", Model.SelItems true [1]);
        ("experience", Model.SelItems true [1; 0])])
  = ("\documentclass{article}\begin{document}\section{Summary}Engineer."
     +:+ "\section{Education}\begin{multicols}{2}\textbf{Stanford}\end{multicols}"
     +:+ "\section{Experience}\item Acme" +:+ Engine.newline +:+ Engine.newline
     +:+ "\item Globex\end{document}").
Proof. vm_compute. reflexivity. Qed.

Example validate_escaped_brace : Engine.validate "a\{b{c}" = Engine.Ok.
Proof. reflexivity. Qed.

(** C2. The validator answers [Ok] exactly when the number of [{] not
    preceded by a backslash equals the number of [}] not preceded by a
    backslash over the whole document. The filter step always hands back
    the assembled text as it is; when the two counts differ its verdict is
    [BraceMismatch] and the debug pair [filtered_debug.tex] (the filtered
    text) and [original_debug.tex] (the original text) has been written. *)
Theorem validator_flags_brace_mismatch `{HostString}
    (p : Model.ParsedData) (selections : gmap string Model.Selection)
    (files : gmap string string) :
  let out := Engine.assemble p selections in
  let res := Engine.generate_filtered_latex p selections files in
  (∀ doc, Engine.validate doc = Engine.Ok ↔
          Engine.unescaped_count Engine.open_brace doc
          = Engine.unescaped_count Engine.close_brace doc)
  ∧ Engine.filtered_latex res.1 = out
  ∧ Engine.verdict res.1 = Engine.validate out
  ∧ (Engine.unescaped_count Engine.open_brace out
     ≠ Engine.unescaped_count Engine.close_brace out →
     Engine.verdict res.1 = Engine.BraceMismatch
     ∧ Engine.debug_paths res.1 = ["filtered_debug.tex"; "original_debug.tex"]
     ∧ res.2 !! "filtered_debug.tex" = Some out
     ∧ res.2 !! "original_debug.tex" = Some (Model.original_latex p)).
Proof.
  intros out res.
  assert (Hval : ∀ doc, Engine.validate doc = Engine.Ok ↔
            Engine.unescaped_count Engine.open_brace doc
            = Engine.unescaped_count Engine.close_brace doc).
  { intros doc. unfold Engine.validate.
    rewrite !EngineFacts.count_unescaped_positions.
    case_decide; split; done. }
  split; [exact Hval|].
  subst res. unfold Engine.generate_filtered_latex. fold out.
  destruct (Engine.validate out) eqn:Hv; simpl.
  - split_and!; try done. intros Hne. by apply Hval in Hv.
  - split_and!; try done. intros _. split_and!; try done.
    + rewrite lookup_insert_ne by done. by rewrite lookup_insert_eq.
    + by rewrite lookup_insert_eq.
Qed.

Lemma validator_flags_brace_mismatch_witness :
  Engine.unescaped_count Engine.open_brace
    (@Engine.assemble ascii_host Sample.broken_parsed ∅)
  ≠ Engine.unescaped_count Engine.close_brace
      (@Engine.assemble ascii_host Sample.broken_parsed ∅)
  ∧ Engine.verdict
      (@Engine.generate_filtered_latex ascii_host Sample.broken_parsed ∅ ∅).1
    = Engine.BraceMismatch
  ∧ (@Engine.generate_filtered_latex ascii_host Sample.broken_parsed ∅ ∅).2
      !! "original_debug.tex"
    = Some (Model.original_latex Sample.broken_parsed).
Proof.
  assert (Hne : Engine.unescaped_count Engine.open_brace
                  (@Engine.assemble ascii_host Sample.broken_parsed ∅)
                ≠ Engine.unescaped_count Engine.close_brace
                    (@Engine.assemble ascii_host Sample.broken_parsed ∅)).
  { vm_compute. discriminate. }
  split; [exact Hne|].
  destruct (@validator_flags_brace_mismatch ascii_host Sample.broken_parsed
              ∅ ∅) as (_ & _ & _ & Hbad).
  destruct (Hbad Hne) as (Hv & _ & _ & Horig).
  split; [exact Hv|exact Horig].
Defined.

(** C3. Two selections with the same keys, enumerated in any order, whose
    item lists agree up to reordering, assemble to the same text. That
    text is, from first to last, the preamble, then for each emitted
    section in turn its header, its wrapper begin, its items with a blank
    line between two of them, its wrapper end and its closing markup (for
    a simple section its header and its content), then the closing. The
    sections emitted follow the order of [section_info]; each is taken
    from the block stored under its key, and the items emitted within it
    have strictly increasing indices and stand in the order in which the
    block, that is the original document, holds them, whatever the order
    in which the selections list them. *)
Theorem assemble_ignores_selection_order `{HostString}
    (p : Model.ParsedData) (es1 es2 : list (string * Model.Selection)) :
  NoDup es1.*1 →
  Engine.reordered es1 es2 →
  Engine.assemble p (Engine.selections_of_entries es1)
  = Engine.assemble p (Engine.selections_of_entries es2)
  ∧ sublist
      (Engine.em_key <$> Engine.plan p (Engine.selections_of_entries es1))
      (Engine.section_key <$> Model.section_info p)
  ∧ Forall (λ e, Engine.ascending (Engine.em_what e))
      (Engine.plan p (Engine.selections_of_entries es1))
  ∧ Engine.assemble p (Engine.selections_of_entries es1)
    = String.concat EmptyString
        (Engine.document_pieces (Model.latex_blocks p)
           (Engine.plan p (Engine.selections_of_entries es1)))
  ∧ Forall (Engine.in_document_order (Model.latex_blocks p))
      (Engine.plan p (Engine.selections_of_entries es1)).
Proof.
  intros Hnd Hre. split_and!.
  - unfold Engine.assemble. rewrite (EngineFacts.plan_same p _
      (Engine.selections_of_entries es2)); [done|].
    intros k. by apply EngineFacts.reordered_lookup.
  - apply EngineFacts.plan_keys_in_order.
  - apply EngineFacts.plan_ascending.
  - apply EngineFacts.assemble_pieces.
  - apply EngineFacts.plan_in_document_order.
Qed.

Lemma assemble_ignores_selection_order_witness :
  NoDup Sample.entries_one.*1
  ∧ Engine.reordered Sample.entries_one Sample.entries_two
  ∧ @Engine.assemble ascii_host Sample.sample_parsed
      (Engine.selections_of_entries Sample.entries_one)
    = @Engine.assemble ascii_host Sample.sample_parsed
        (Engine.selections_of_entries Sample.entries_two)
  ∧ @Engine.assemble ascii_host Sample.sample_parsed
      (Engine.selections_of_entries Sample.entries_one)
    = String.concat EmptyString
        (Engine.document_pieces (Model.latex_blocks Sample.sample_parsed)
           (@Engine.plan ascii_host Sample.sample_parsed
              (Engine.selections_of_entries Sample.entries_one))).
Proof.
  assert (Hnd : NoDup Sample.entries_one.*1).
  { apply (bool_decide_unpack _). vm_compute. exact I. }
  assert (Hre : Engine.reordered Sample.entries_one Sample.entries_two).
  { exists [("experience", Model.SelItems true [1]);
            ("education", Model.SelItems true [1; 0])].
    split; [apply perm_swap|].
    repeat constructor; simpl; try done; try apply perm_swap. }
  split; [exact Hnd|]. split; [exact Hre|].
  destruct (@assemble_ignores_selection_order ascii_host
              Sample.sample_parsed _ _ Hnd Hre) as (Hsame & _ & _ & Htext & _).
  split; [exact Hsame|exact Htext].
Defined.

(** C6. Unchecking an item removes exactly that index from the items of
    the key, leaves the other keys alone, and stores an enabled flag that
    is true iff items remain. Unchecking the only selected item stores
    [{enabled: false, items: []}]; assembling a document in which that key
    is a section with items then emits nothing for the section, neither
    header nor wrapper: no emitted section has that key, the text is, from
    first to last, the preamble, the pieces of the emitted sections, all
    of other keys, and the closing, and it is the text assembled for the
    document that has neither the section nor its block. *)
Theorem deselecting_last_item_omits_section `{HostString}
    (s : gmap string Model.Selection) (k : string) (i : Z) :
  let old := Page.items_of (s !! k) in
  let s' := Page.handleItemChange s k i false in
  let its := filter (λ j, j ≠ i) old in
  s' !! k = Some (Model.SelItems (bool_decide (its ≠ [])) its)
  ∧ (∀ j, j ∈ its ↔ j ∈ old ∧ j ≠ i)
  ∧ (∀ k', k' ≠ k → s' !! k' = s !! k')
  ∧ (old = [i] →
     s' !! k = Some (Model.SelItems false [])
     ∧ ∀ p b,
         Model.sections (Model.latex_blocks p) !! k = Some b →
         Model.has_items b = true →
         (∀ info, Engine.section_key info = k →
                  Engine.plan_section (Model.latex_blocks p) s' info = None)
         ∧ (∀ e, e ∈ Engine.plan p s' → Engine.em_key e ≠ k)
         ∧ Engine.assemble p s'
           = String.concat EmptyString
               (Engine.document_pieces (Model.latex_blocks p)
                  (filter (λ e, Engine.em_key e ≠ k) (Engine.plan p s')))
         ∧ ((∀ info, info ∈ Model.section_info p →
                     Engine.section_key info = k) →
            Engine.assemble p s'
            = Model.preamble (Model.latex_blocks p)
              +:+ Model.closing (Model.latex_blocks p))
         ∧ Model.sections (Model.latex_blocks (Engine.without_section k p))
             !! k = None
         ∧ Engine.assemble p s'
           = Engine.assemble (Engine.without_section k p) s').
Proof.
  intros old s' its.
  assert (Hk : s' !! k = Some (Model.SelItems (bool_decide (its ≠ [])) its)).
  { subst s'. rewrite PageFacts.handleItemChange_lookup.
    rewrite decide_True by done. simpl. fold old. fold its. do 2 f_equal.
    apply bool_decide_ext. destruct its; simpl; split; (lia || done). }
  split; [exact Hk|]. split.
  { intros j. subst its. rewrite list_elem_of_filter. tauto. }
  split.
  { intros k' Hne. subst s'. rewrite PageFacts.handleItemChange_lookup.
    by rewrite decide_False. }
  intros Hold.
  assert (Hnil : its = []).
  { subst its. rewrite Hold. by rewrite filter_cons_False, filter_nil
      by naive_solver. }
  rewrite Hnil in Hk. rewrite bool_decide_eq_false_2 in Hk by naive_solver.
  split; [exact Hk|]. intros p b Hb Hitems.
  assert (Hnone : ∀ info, Engine.section_key info = k →
            Engine.plan_section (Model.latex_blocks p) s' info = None).
  { intros info Hinfo. unfold Engine.plan_section.
    rewrite Hinfo, Hb, Hk. simpl.
    by rewrite EngineFacts.choose_disabled. }
  pose proof (EngineFacts.plan_never_emits p s' k Hnone) as Hnever.
  split; [exact Hnone|]. split; [exact Hnever|]. split_and!.
  - rewrite EngineFacts.assemble_pieces. do 2 f_equal.
    symmetry. apply EngineFacts.filter_all, Forall_forall. exact Hnever.
  - intros Hall. rewrite EngineFacts.assemble_pieces.
    replace (Engine.plan p s') with (@nil Engine.Emitted).
    { reflexivity. }
    symmetry. unfold Engine.plan.
    induction (Model.section_info p) as [|info l IH]; [done|]. csimpl.
    rewrite (Hnone info) by (apply Hall; left).
    apply IH. intros info' Hin. apply Hall. by right.
  - simpl. apply lookup_delete_eq.
  - by apply EngineFacts.assemble_without_section.
Qed.

Lemma deselecting_last_item_omits_section_witness :
  Page.items_of
    (<["education" := Model.SelItems true [1]]>
       (Page.st_selections Sample.sample_page) !! "education") = [1]
  ∧ Model.sections (Model.latex_blocks Sample.sample_parsed) !! "education"
    = Some Sample.education_block
  ∧ Model.has_items Sample.education_block = true
  ∧ Page.handleItemChange
      (<["education" := Model.SelItems true [1]]>
         (Page.st_selections Sample.sample_page)) "education" 1 false
      !! "education"
    = Some (Model.SelItems false [])
  ∧ (∀ e,
      e ∈ @Engine.plan ascii_host Sample.sample_parsed
            (Page.handleItemChange
               (<["education" := Model.SelItems true [1]]>
                  (Page.st_selections Sample.sample_page)) "education" 1 false) →
      Engine.em_key e ≠ "education")
  ∧ @Engine.assemble ascii_host Sample.sample_parsed
      (Page.handleItemChange
         (<["education" := Model.SelItems true [1]]>
            (Page.st_selections Sample.sample_page)) "education" 1 false)
    = @Engine.assemble ascii_host
        (@Engine.without_section ascii_host "education" Sample.sample_parsed)
        (Page.handleItemChange
           (<["education" := Model.SelItems true [1]]>
              (Page.st_selections Sample.sample_page)) "education" 1 false).
Proof.
  split; [reflexivity|]. split; [reflexivity|]. split; [reflexivity|].
  destruct (@deselecting_last_item_omits_section ascii_host
              (<["education" := Model.SelItems true [1]]>
                 (Page.st_selections Sample.sample_page)) "education" 1)
    as (_ & _ & _ & Hlast).
  destruct (Hlast eq_refl) as [Hk Hp].
  split; [exact Hk|].
  destruct (Hp Sample.sample_parsed Sample.education_block eq_refl eq_refl)
    as (_ & Hplan & _ & _ & _ & Hsame).
  split; [exact Hplan|exact Hsame].
Defined.

(* ===================================================================== *)
(** * More about the section key *)
(* ===================================================================== *)

Module KeyShape.
Import Key KeyFacts KeyChars.

Lemma collapse_key_chars l : Forall key_char (collapse_runs l).
Proof.
  remember (length l) as n eqn:Hn.
  revert l Hn. induction (lt_wf n) as [n _ IH]. intros l ->.
  destruct l as [|c r]; [constructor|].
  destruct (not_az09 c) eqn:Hc.
  - rewrite collapse_cons_out by done. constructor; [by right|].
    eapply IH; [|done]. pose proof (skip_run_shorter not_az09 r). simpl. lia.
  - rewrite collapse_cons_in by done. constructor.
    + left. unfold not_az09 in Hc. by destruct (in_az09 c).
    + eapply IH; [|done]. simpl. lia.
Qed.

(** Stripping the edges cuts a piece out of the text. *)
Lemma strip_edge_infix l :
  ∃ pre post, l = pre ++ strip_edge_underscores l ++ post.
Proof.
  assert (Hlast : ∀ x, ∃ post, x = strip_last_underscore x ++ post).
  { intros x. destruct x as [|c y _] using rev_ind; [by exists []|].
    rewrite strip_last_snoc. destruct (is_underscore c).
    - by exists [c].
    - exists []. by rewrite app_nil_r. }
  unfold strip_edge_underscores. destruct l as [|c r].
  - by exists [], [].
  - destruct (is_underscore c).
    + destruct (Hlast r) as [post Hr]. exists [c], post. simpl. by f_equal.
    + destruct (Hlast (c :: r)) as [post Hr]. by exists [], post.
Qed.

Lemma drop_leading_head l : head (drop_leading_underscores l) ≠ Some underscore.
Proof.
  induction l as [|c r IH]; simpl; [done|].
  destruct (is_underscore c) eqn:Hc; [done|]. simpl. intros [= ->].
  by rewrite (proj2 (is_underscore_true underscore)) in Hc.
Qed.

Lemma drop_leading_last l :
  drop_leading_underscores l = [] ∨ last (drop_leading_underscores l) = last l.
Proof.
  induction l as [|c r IH]; simpl; [by left|].
  destruct (is_underscore c); [|by right].
  destruct IH as [IH|IH]; [by left|].
  destruct r as [|d r']; [by left|]. right. by rewrite IH.
Qed.

Lemma head_rev {A} (l : list A) : head (rev l) = last l.
Proof.
  destruct l as [|x l _] using rev_ind; [done|].
  by rewrite rev_unit, last_snoc.
Qed.

Lemma last_rev {A} (l : list A) : last (rev l) = head l.
Proof. by rewrite <-head_rev, rev_involutive. Qed.

Lemma trim_edges l :
  head (trim_underscores l) ≠ Some underscore
  ∧ last (trim_underscores l) ≠ Some underscore.
Proof.
  unfold trim_underscores. rewrite head_rev, last_rev. split.
  - destruct (drop_leading_last (rev (drop_leading_underscores l)))
      as [Hd | Hd]; rewrite Hd; [done|].
    rewrite last_rev. apply drop_leading_head.
  - apply drop_leading_head.
Qed.

(** A text of key characters without doubled underscores is left alone by
    the collapse. *)
Lemma collapse_fixes_keys l :
  Forall key_char l →
  (∀ l1 l2, l ≠ l1 ++ underscore :: underscore :: l2) →
  collapse_runs l = l.
Proof.
  induction l as [|c r IH]; intros Hall Hnd; [done|].
  apply Forall_cons in Hall as [Hc Hall].
  assert (Hr : collapse_runs r = r).
  { apply IH; [done|]. intros l1 l2 ->. by apply (Hnd (c :: l1) l2). }
  destruct (not_az09 c) eqn:Hn.
  - rewrite collapse_cons_out by done.
    destruct Hc as [Hc| ->]; [unfold not_az09 in Hn; by rewrite Hc in Hn|].
    f_equal. destruct r as [|d r']; [done|]. simpl.
    apply Forall_cons in Hall as [[Hd| ->] _].
    + unfold not_az09. by rewrite Hd.
    + by destruct (Hnd [] r').
  - rewrite collapse_cons_in by done. by f_equal.
Qed.

Lemma strip_edge_fixes l :
  head l ≠ Some underscore → last l ≠ Some underscore →
  strip_edge_underscores l = l.
Proof.
  intros Hh Hl. unfold strip_edge_underscores.
  assert (is_underscore_false : ∀ c, c ≠ underscore → is_underscore c = false).
  { intros c Hc. destruct (is_underscore c) eqn:E; [|done].
    by apply is_underscore_true in E. }
  destruct l as [|c r]; [done|].
  rewrite is_underscore_false by (intros ->; by apply Hh).
  destruct (c :: r) as [|d y _] using rev_ind; [done|].
  rewrite strip_last_snoc. rewrite last_snoc in Hl.
  rewrite is_underscore_false; [done|]. intros ->. by apply Hl.
Qed.

(** ASCII lowercasing changes no key character. *)
Lemma string_lower_fixes_keys (s : string) :
  Forall key_char (String.list_ascii_of_string s) → string_lower s = s.
Proof.
  induction s as [|c s IH]; [done|]. simpl. intros Hall.
  apply Forall_cons in Hall as [Hc Hall]. rewrite IH by done. f_equal.
  destruct Hc as [Hc| ->]; [|done]. revert Hc.
  destruct c as [[] [] [] [] [] [] [] []]; vm_compute; congruence.
Qed.

End KeyShape.

(** The shape of a key, as a lemma for what follows. *)
Lemma key_shape_of_title `{HostString} (t : string) :
  let k := String.list_ascii_of_string (Key.normalizedTitle t) in
  Forall KeyChars.key_char k
  ∧ head k ≠ Some Key.underscore
  ∧ last k ≠ Some Key.underscore
  ∧ ∀ l1 l2, k ≠ l1 ++ Key.underscore :: Key.underscore :: l2.
Proof.
  intros k. subst k. unfold Key.normalizedTitle.
  rewrite String.list_ascii_of_string_of_list_ascii.
  rewrite KeyFacts.replace_runs_collapse.
  set (l := Key.collapse_runs _).
  pose proof (KeyShape.collapse_key_chars
                (String.list_ascii_of_string (toLowerCase t))) as Hall.
  pose proof (KeyFacts.collapse_no_double
                (String.list_ascii_of_string (toLowerCase t))) as Hnd.
  fold l in Hall, Hnd.
  destruct (KeyShape.strip_edge_infix l) as (pre & post & Hl).
  split_and!.
  - rewrite Hl in Hall. by apply Forall_app in Hall as [_ [? _]%Forall_app].
  - rewrite KeyFacts.strip_edge_trim by done. apply KeyShape.trim_edges.
  - rewrite KeyFacts.strip_edge_trim by done. apply KeyShape.trim_edges.
  - intros l1 l2 Heq. apply (Hnd (pre ++ l1) (l2 ++ post)).
    rewrite Hl at 1. rewrite Heq. by rewrite <-!app_assoc.
Qed.

(** X1. Whatever the title and whatever the lowercasing of the host, the
    key holds only characters of [a-z0-9] and underscores, neither starts
    nor ends with an underscore, and has no two underscores in a row. *)
Theorem normalizedTitle_shape `{HostString} (t : string) :
  let k := String.list_ascii_of_string (Key.normalizedTitle t) in
  Forall KeyChars.key_char k
  ∧ head k ≠ Some Key.underscore
  ∧ last k ≠ Some Key.underscore
  ∧ ∀ l1 l2, k ≠ l1 ++ Key.underscore :: Key.underscore :: l2.
Proof.
  intros k. subst k. unfold Key.normalizedTitle.
  rewrite String.list_ascii_of_string_of_list_ascii.
  rewrite KeyFacts.replace_runs_collapse.
  set (l := Key.collapse_runs _).
  pose proof (KeyShape.collapse_key_chars
                (String.list_ascii_of_string (toLowerCase t))) as Hall.
  pose proof (KeyFacts.collapse_no_double
                (String.list_ascii_of_string (toLowerCase t))) as Hnd.
  fold l in Hall, Hnd.
  destruct (KeyShape.strip_edge_infix l) as (pre & post & Hl).
  split_and!.
  - rewrite Hl in Hall. by apply Forall_app in Hall as [_ [? _]%Forall_app].
  - rewrite KeyFacts.strip_edge_trim by done. apply KeyShape.trim_edges.
  - rewrite KeyFacts.strip_edge_trim by done. apply KeyShape.trim_edges.
  - intros l1 l2 Heq. apply (Hnd (pre ++ l1) (l2 ++ post)).
    rewrite Hl at 1. rewrite Heq. by rewrite <-!app_assoc.
Qed.

(** X2. When the lowercasing of the host leaves texts of key characters
    as they are, a key is its own key: computing the key of a key changes
    nothing. *)
Theorem normalizedTitle_idempotent `{HostString} (t : string) :
  (∀ s, Forall KeyChars.key_char (String.list_ascii_of_string s) →
        toLowerCase s = s) →
  Key.normalizedTitle (Key.normalizedTitle t) = Key.normalizedTitle t.
Proof.
  intros Hfix.
  destruct (key_shape_of_title t) as (Hall & Hh & Hl & Hnd).
  set (k := Key.normalizedTitle t) in *.
  unfold Key.normalizedTitle at 1. rewrite (Hfix k Hall).
  rewrite KeyFacts.replace_runs_collapse.
  rewrite KeyShape.collapse_fixes_keys by done.
  rewrite KeyShape.strip_edge_fixes by done.
  apply String.string_of_list_ascii_of_string.
Qed.

Lemma normalizedTitle_idempotent_witness :
  @Key.normalizedTitle ascii_host
    (@Key.normalizedTitle ascii_host "Work  Experience (2020)")
  = "work_experience_2020".
Proof.
  rewrite (@normalizedTitle_idempotent ascii_host "Work  Experience (2020)"
             KeyShape.string_lower_fixes_keys).
  reflexivity.
Defined.

(* ===================================================================== *)
(** * More about the selections of the page *)
(* ===================================================================== *)

Module PageMore.
Import Js Model Page PageView PageShape PageFacts.

Lemma includes_true its i : includes its i = true ↔ i ∈ its.
Proof. unfold includes. by rewrite bool_decide_eq_true. Qed.

Lemma includes_false its i : includes its i = false ↔ i ∉ its.
Proof. unfold includes. by rewrite bool_decide_eq_false. Qed.

(** The items a key holds after an item checkbox event. *)
Lemma handleItemChange_items s k i b :
  items_of (handleItemChange s k i b !! k)
  = if b then (if includes (items_of (s !! k)) i then items_of (s !! k)
               else items_of (s !! k) ++ [i])
    else filter (λ j, j ≠ i) (items_of (s !! k)).
Proof.
  rewrite handleItemChange_lookup, decide_True by done. by destruct b.
Qed.


Lemma dispatch_metadata st ev :
  st_metadata (dispatch st ev) = st_metadata st
  ∧ st_parsedData (dispatch st ev) = st_parsedData st.
Proof.
  destruct ev as [k b|k i b]; simpl; [|done].
  by destruct (handleSectionChange _ _ k b).
Qed.

Lemma run_metadata st evs :
  st_metadata (run st evs) = st_metadata st
  ∧ st_parsedData (run st evs) = st_parsedData st.
Proof.
  unfold run. induction evs as [|ev evs IH] in st |- *; simpl; [done|].
  destruct (IH (dispatch st ev)) as [-> ->]. apply dispatch_metadata.
Qed.

Lemma initialSelections_fits md p : fits md p (initialSelections md).
Proof.
  intros k. rewrite initialSelections_lookup.
  case_decide as Hk; [done|].
  destruct (md !! k) as [m|] eqn:Hm; simpl; [|done].
  unfold initial_selection. destruct (type m); [by eexists|].
  eexists _, _. split; [done|]. split; [apply NoDup_seqZ|].
  apply Forall_forall. intros i Hi%elem_of_seqZ.
  unfold index_bound, index_range. lia.
Qed.

Lemma fits_lookup md p s k m :
  fits md p s → k ≠ "header" → md !! k = Some m →
  match type m with
  | simple => ∃ b, s !! k = Some (SelBool b)
  | complex =>
      ∃ enabled its,
        s !! k = Some (SelItems enabled its)
        ∧ NoDup its
        ∧ Forall (λ i, 0 ≤ i < index_bound p k m) its
  end.
Proof.
  intros Hf Hk Hm. specialize (Hf k).
  by rewrite decide_False, Hm in Hf.
Qed.

Lemma fits_insert md p s k m sel :
  fits md p s → k ≠ "header" → md !! k = Some m →
  match type m with
  | simple => ∃ b, sel = SelBool b
  | complex =>
      ∃ enabled its,
        sel = SelItems enabled its ∧ NoDup its
        ∧ Forall (λ i, 0 ≤ i < index_bound p k m) its
  end →
  fits md p (<[k := sel]> s).
Proof.
  intros Hf Hk Hm Hsel k'. destruct (decide (k' = k)) as [->|Hne].
  - rewrite decide_False, Hm, lookup_insert_eq by done.
    destruct (type m).
    + destruct Hsel as [b ->]. by eexists.
    + destruct Hsel as (e & its & -> & ? & ?). by eexists _, _.
  - rewrite lookup_insert_ne by done. apply Hf.
Qed.

Lemma dispatch_fits st ev :
  offered st ev →
  fits (st_metadata st) (st_parsedData st) (st_selections st) →
  fits (st_metadata st) (st_parsedData st) (st_selections (dispatch st ev))
  ∧ match ev with
    | SectionToggled k b =>
        ∃ s', handleSectionChange (st_metadata st) (st_selections st) k b
              = Normal s'
    | ItemToggled _ _ _ => True
    end.
Proof.
  intros Hoff Hf. destruct ev as [k b|k i b]; simpl in *.
  - destruct Hoff as [Hk [m Hm]]. unfold handleSectionChange. rewrite Hm.
    pose proof (fits_lookup _ _ _ k m Hf Hk Hm) as Hcur.
    destruct (type m) eqn:Hty; simpl; (split; [|by eexists]).
    + eapply fits_insert; [done..|]. rewrite Hty. by eexists.
    + eapply fits_insert; [done..|]. rewrite Hty.
      destruct Hcur as (e & its & Hs & Hnd & Hall). rewrite Hs. simpl.
      destruct b; eexists _, _; split_and!; try done; constructor.
  - split; [|done]. destruct Hoff as (Hk & (m & Hm & Hty) & Hi).
    pose proof (fits_lookup _ _ _ k m Hf Hk Hm) as Hcur.
    rewrite Hty in Hcur. destruct Hcur as (e & its & Hs & Hnd & Hall).
    unfold handleItemChange. eapply fits_insert; [done..|]. rewrite Hty.
    rewrite Hs. simpl. eexists _, _. split; [done|].
    destruct b.
    + unfold includes. case_bool_decide as Hin; [done|]. split.
      * apply NoDup_app. split_and!; [done| |apply NoDup_singleton].
        intros x Hx ->%list_elem_of_singleton. done.
      * apply Forall_app. split; [done|]. constructor; [|done].
        unfold index_bound. lia.
    + split; [by apply NoDup_filter|].
      apply Forall_forall. intros x [_ Hx]%list_elem_of_filter.
      rewrite Forall_forall in Hall. by apply Hall.
Qed.

Lemma run_fits st evs :
  Forall (offered st) evs →
  fits (st_metadata st) (st_parsedData st) (st_selections st) →
  fits (st_metadata st) (st_parsedData st) (st_selections (run st evs)).
Proof.
  unfold run.
  assert (Hgen : ∀ st', st_metadata st' = st_metadata st →
            st_parsedData st' = st_parsedData st →
            Forall (offered st) evs →
            fits (st_metadata st) (st_parsedData st) (st_selections st') →
            fits (st_metadata st) (st_parsedData st)
              (st_selections (foldl dispatch st' evs))).
  { induction evs as [|ev evs IH]; intros st' Hmd Hpd Hoff Hf; [done|].
    apply Forall_cons in Hoff as [Hev Hoff]. simpl.
    destruct (dispatch_metadata st' ev) as [Hmd' Hpd'].
    apply IH; [congruence..|done|].
    assert (Hev' : offered st' ev).
    { destruct ev; simpl in *; by rewrite Hmd, ?Hpd. }
    destruct (dispatch_fits st' ev Hev') as [Hfit _].
    - by rewrite Hmd, Hpd.
    - by rewrite Hmd, Hpd in Hfit. }
  intros. by apply Hgen.
Qed.

(** Pairwise different indices below a bound are at most that many. *)
Lemma bounded_distinct_length (its : list Z) (n : Z) :
  NoDup its → Forall (λ i, 0 ≤ i < n) its → Z.of_nat (length its) ≤ Z.max 0 n.
Proof.
  intros Hnd Hall.
  assert (Hsub : its ⊆+ seqZ 0 n).
  { apply NoDup_submseteq; [done|]. intros x Hx. apply elem_of_seqZ.
    rewrite Forall_forall in Hall. specialize (Hall x Hx). lia. }
  apply submseteq_length in Hsub. rewrite length_seqZ in Hsub. lia.
Qed.

Lemma handleSectionChange_disabled md s k b s' :
  handleSectionChange md s k b = Normal s' →
  disabled_are_empty s → disabled_are_empty s'.
Proof.
  unfold handleSectionChange. intros Hh Hs k' its.
  destruct (md !! k) as [m|]; [|done].
  destruct (type m); injection Hh as <-.
  - destruct (decide (k = k')) as [->|].
    + by rewrite lookup_insert_eq.
    + rewrite lookup_insert_ne by done. apply Hs.
  - destruct (decide (k = k')) as [->|].
    + rewrite lookup_insert_eq. destruct b; [done|]. by intros [= <-].
    + rewrite lookup_insert_ne by done. apply Hs.
Qed.

Lemma handleItemChange_disabled s k i b :
  disabled_are_empty s → disabled_are_empty (handleItemChange s k i b).
Proof.
  intros Hs k' its. rewrite handleItemChange_lookup.
  case_decide; [|apply Hs]. simpl. intros [= Hen <-].
  apply bool_decide_eq_false in Hen.
  match goal with |- ?l = [] => destruct l; [done|simpl in Hen; lia] end.
Qed.

Lemma run_disabled st evs :
  disabled_are_empty (st_selections st) →
  disabled_are_empty (st_selections (run st evs)).
Proof.
  unfold run. induction evs as [|ev evs IH] in st |- *; simpl; [done|].
  intros Hs. apply IH. destruct ev as [k b|k i b]; simpl.
  - destruct (handleSectionChange _ _ k b) as [s'|] eqn:Hh; [|done].
    simpl. by eapply handleSectionChange_disabled.
  - by apply handleItemChange_disabled.
Qed.

End PageMore.


(** X4. Setting an item checkbox twice to the same value is the same as
    setting it once; and checking an item that was not selected and then
    unchecking it gives back the items the key had. *)
Theorem item_toggle_idempotent_and_undone
    (s : gmap string Model.Selection) (k : string) (i : Z) (b : bool) :
  Page.handleItemChange (Page.handleItemChange s k i b) k i b
  = Page.handleItemChange s k i b
  ∧ (i ∉ Page.items_of (s !! k) →
     Page.items_of
       (Page.handleItemChange (Page.handleItemChange s k i true) k i false
          !! k)
     = Page.items_of (s !! k)).
Proof.
  split.
  - apply map_eq. intros k'. rewrite !PageFacts.handleItemChange_lookup.
    case_decide as Hk; [|done]. subst k'.
    rewrite decide_True by done. simpl. destruct b.
    + destruct (Page.includes (Page.items_of (s !! k)) i) eqn:Hin.
      * by rewrite Hin.
      * replace (Page.includes (Page.items_of (s !! k) ++ [i]) i) with true;
          [done|].
        symmetry. apply PageMore.includes_true, elem_of_app. right.
        by apply list_elem_of_singleton.
    + by rewrite list_filter_filter_l by tauto.
  - intros Hnot. rewrite !PageMore.handleItemChange_items.
    rewrite (proj2 (PageMore.includes_false _ _) Hnot).
    rewrite filter_app, filter_cons_False, filter_nil, app_nil_r by tauto.
    induction (Page.items_of (s !! k)) as [|x l IH]; [done|].
    apply not_elem_of_cons in Hnot as [Hx Hl].
    rewrite filter_cons_True by done. f_equal. by apply IH.
Qed.

Lemma item_toggle_idempotent_and_undone_witness :
  (2 ∉ Page.items_of (Page.st_selections Sample.sample_page !! "education"))
  ∧ Page.items_of
      (Page.handleItemChange
         (Page.handleItemChange (Page.st_selections Sample.sample_page)
            "education" 2 true) "education" 2 false !! "education")
    = [0; 1].
Proof.
  assert (Hnot : 2 ∉ Page.items_of
                       (Page.st_selections Sample.sample_page !! "education")).
  { vm_compute. intros Hin. apply list_elem_of_In in Hin. simpl in Hin.
    intuition discriminate. }
  split; [exact Hnot|].
  rewrite (proj2 (item_toggle_idempotent_and_undone
                    (Page.st_selections Sample.sample_page) "education" 2 true)
             Hnot).
  reflexivity.
Defined.

(** X5. From the selections of a successful parse, whatever checkbox
    events follow, an item selection that is switched off holds no items:
    a disabled section never carries selected items along. *)
Theorem disabled_sections_hold_no_items
    (r : Api.ApiResponse Page.ParseResult) (d : Page.ParseResult)
    (st : Page.PageState) (evs : list Page.Event) :
  Api.success r = true →
  Api.data r = Some d →
  ∀ k its,
    Page.st_selections
      (Page.run (Page.parseLatexSections (Js.Normal r) st) evs) !! k
    = Some (Model.SelItems false its) →
    its = [].
Proof.
  intros Hok Hd. apply PageMore.run_disabled.
  unfold Page.parseLatexSections. rewrite Hok, Hd. simpl.
  intros k its. rewrite PageFacts.initialSelections_lookup.
  case_decide; [done|]. destruct (Page.metadata d !! k) as [m|]; [|done].
  simpl. unfold Page.initial_selection. by destruct (Model.type m).
Qed.

Lemma disabled_sections_hold_no_items_witness :
  Api.success Sample.sample_response = true
  ∧ Api.data Sample.sample_response = Some Sample.sample_result
  ∧ Page.st_selections
      (Page.run Sample.sample_page
         [Page.ItemToggled "education" 0 false;
          Page.ItemToggled "education" 1 false]) !! "education"
    = Some (Model.SelItems false [])
  ∧ ([] : list Z) = [].
Proof.
  split; [reflexivity|]. split; [reflexivity|]. split; [reflexivity|].
  symmetry.
  eapply (disabled_sections_hold_no_items Sample.sample_response
            Sample.sample_result Page.initial_state
            [Page.ItemToggled "education" 0 false;
             Page.ItemToggled "education" 1 false]
            eq_refl eq_refl "education").
  reflexivity.
Defined.

(** X6. From the selections of a successful parse, as long as the events
    come from the checkboxes the page renders, the selections keep
    fitting the metadata: exactly the metadata keys other than [header], a
    boolean under a simple key, an item selection with pairwise different
    indices under a complex key. The section handler never throws on such
    an event, the counter of a section never throws, and it never shows
    more than the larger of [item_count] and the number of rendered
    items. *)
Theorem offered_events_keep_selections_fitting
    (r : Api.ApiResponse Page.ParseResult) (d : Page.ParseResult)
    (st : Page.PageState) (evs : list Page.Event) :
  Api.success r = true →
  Api.data r = Some d →
  Forall (PageView.offered (Page.parseLatexSections (Js.Normal r) st)) evs →
  let st1 := Page.run (Page.parseLatexSections (Js.Normal r) st) evs in
  PageShape.fits (Page.metadata d) (Some (Page.parsedData d))
    (Page.st_selections st1)
  ∧ dom (Page.st_selections st1) = dom (Page.metadata d) ∖ {["header"]}
  ∧ (∀ k b, PageView.offered st1 (Page.SectionToggled k b) →
       ∃ s', Page.handleSectionChange (Page.st_metadata st1)
               (Page.st_selections st1) k b = Js.Normal s')
  ∧ (∀ k m, k ≠ "header" → Page.metadata d !! k = Some m →
       ∃ shown,
         PageView.items_counter m (Page.st_selections st1 !! k)
         = Js.Normal shown
         ∧ ∀ c, shown = Some c →
             Z.of_nat c
             ≤ PageView.index_bound (Some (Page.parsedData d)) k m).
Proof.
  intros Hok Hd Hoff st1.
  set (st0 := Page.parseLatexSections (Js.Normal r) st) in *.
  assert (Hmd0 : Page.st_metadata st0 = Page.metadata d
                 ∧ Page.st_parsedData st0 = Some (Page.parsedData d)
                 ∧ Page.st_selections st0
                   = Page.initialSelections (Page.metadata d)).
  { subst st0. unfold Page.parseLatexSections. by rewrite Hok, Hd. }
  destruct Hmd0 as (Hmd & Hpd & Hsel).
  destruct (PageMore.run_metadata st0 evs) as [Hmd1 Hpd1]. fold st1 in Hmd1, Hpd1.
  assert (Hfit : PageShape.fits (Page.metadata d) (Some (Page.parsedData d))
                   (Page.st_selections st1)).
  { rewrite <-Hmd, <-Hpd. apply PageMore.run_fits; [done|].
    rewrite Hmd, Hpd, Hsel. apply PageMore.initialSelections_fits. }
  split; [exact Hfit|]. split_and!.
  - apply set_eq. intros k.
    rewrite elem_of_difference, !elem_of_dom, not_elem_of_singleton.
    specialize (Hfit k). case_decide as Hk.
    + rewrite Hfit. split; [by intros []|]. by intros [_ []].
    + destruct (Page.metadata d !! k) as [m|] eqn:Hm.
      * split; [by eauto|]. intros _.
        destruct (Model.type m).
        -- destruct Hfit as [b ->]. by eexists.
        -- destruct Hfit as (e & its & -> & _). by eexists.
      * rewrite Hfit. split; [by intros []|]. by intros [[] _].
  - intros k b [Hk [m Hm]]. unfold Page.handleSectionChange. rewrite Hm.
    destruct (Model.type m); by eexists.
  - intros k m Hk Hm.
    pose proof (PageMore.fits_lookup _ _ _ k m Hfit Hk Hm) as Hcur.
    unfold PageView.items_counter. destruct (Model.type m).
    + exists None. by split.
    + destruct Hcur as (e & its & -> & Hnd & Hall).
      exists (Some (length its)). split; [done|]. intros c [= <-].
      pose proof (PageMore.bounded_distinct_length its _ Hnd Hall) as Hlen.
      unfold PageView.index_bound in *. lia.
Qed.

Lemma offered_events_keep_selections_fitting_witness :
  Api.success Sample.sample_response = true
  ∧ Api.data Sample.sample_response = Some Sample.sample_result
  ∧ Forall (PageView.offered Sample.sample_page)
      [Page.ItemToggled "education" 1 false;
       Page.SectionToggled "summary" false;
       Page.ItemToggled "experience" 1 true]
  ∧ dom (Page.st_selections
           (Page.run Sample.sample_page
              [Page.ItemToggled "education" 1 false;
               Page.SectionToggled "summary" false;
               Page.ItemToggled "experience" 1 true]))
    = dom Sample.sample_metadata ∖ {["header"]}.
Proof.
  assert (Hoff : Forall (PageView.offered Sample.sample_page)
                   [Page.ItemToggled "education" 1 false;
                    Page.SectionToggled "summary" false;
                    Page.ItemToggled "experience" 1 true]).
  { repeat constructor; try discriminate; try (vm_compute; congruence);
      try (by eexists); try (eexists; split; reflexivity). }
  split; [reflexivity|]. split; [reflexivity|]. split; [exact Hoff|].
  exact (proj1 (proj2 (offered_events_keep_selections_fitting
                         Sample.sample_response Sample.sample_result
                         Page.initial_state _ eq_refl eq_refl Hoff))).
Defined.

(** X7. For a key the metadata know, the section handler does not throw,
    changes no other key, and the section checkbox then shows the value
    that was set. For a complex section, unchecking it unchecks every item
    of the section, and checking it leaves the item checkboxes as they
    were. *)
Theorem section_checkbox_follows_toggle
    (md : gmap string Model.SectionMetadata)
    (s : gmap string Model.Selection) (k : string)
    (m : Model.SectionMetadata) (b : bool) :
  md !! k = Some m →
  ∃ s',
    Page.handleSectionChange md s k b = Js.Normal s'
    ∧ PageView.section_checked m (s' !! k) = b
    ∧ (∀ k', k' ≠ k → s' !! k' = s !! k')
    ∧ (Model.type m = Model.complex →
       ∀ j, PageView.item_checked (s' !! k) j
            = b && PageView.item_checked (s !! k) j).
Proof.
  intros Hm. unfold Page.handleSectionChange. rewrite Hm.
  destruct (Model.type m) eqn:Hty; eexists; (split; [reflexivity|]);
    unfold PageView.section_checked; rewrite Hty, lookup_insert_eq;
    (split; [done|]); (split; [by intros; rewrite lookup_insert_ne|]);
    [done|].
  intros _ j. unfold PageView.item_checked. simpl. by destruct b.
Qed.

Lemma section_checkbox_follows_toggle_witness :
  Sample.sample_metadata !! "education"
    = Some (Sample.meta Model.complex "Education" (Some 2))
  ∧ ∃ s',
      Page.handleSectionChange Sample.sample_metadata
        (Page.st_selections Sample.sample_page) "education" false
      = Js.Normal s'
      ∧ PageView.item_checked (s' !! "education") 1 = false.
Proof.
  split; [reflexivity|].
  destruct (section_checkbox_follows_toggle Sample.sample_metadata
              (Page.st_selections Sample.sample_page) "education"
              (Sample.meta Model.complex "Education" (Some 2)) false eq_refl)
    as (s' & Hs' & _ & _ & Hitems).
  exists s'. split; [exact Hs'|]. exact (Hitems eq_refl 1).
Defined.

(** X8. With at most 999 sections, the position the sort comparator gives
    a key is below 999 exactly when some title has that key; it is then
    the index of the first such title, and the subsection titles shown
    for the key are those of that very section. A key that no title has
    gets position 999 and no subsection titles. *)
Theorem sort_position_finds_first_title `{HostString}
    (p : Model.ParsedData) (k : string) :
  (length (Model.section_info p) ≤ 999)%nat →
  (Page.sort_position p k < 999 ↔
     ∃ s, s ∈ Model.section_info p ∧ Key.normalizedTitle (Model.title s) = k)
  ∧ (∀ i, Page.sort_position p k = Z.of_nat i → (i < 999)%nat →
       ∃ s, Model.section_info p !! i = Some s
         ∧ Key.normalizedTitle (Model.title s) = k
         ∧ Page.getSubsectionTitles (Some p) k = Model.subsections s
         ∧ ∀ j s', (j < i)%nat → Model.section_info p !! j = Some s' →
             Key.normalizedTitle (Model.title s') ≠ k)
  ∧ (Page.sort_position p k = 999 → Page.getSubsectionTitles (Some p) k = []).
Proof.
  intros Hlen. unfold Page.sort_position, Page.getSubsectionTitles.
  destruct (list_find _ (Model.section_info p)) as [[i s]|] eqn:Hfind.
  - apply list_find_Some in Hfind as (Hi & Hs & Hfirst).
    pose proof (lookup_lt_Some _ _ _ Hi) as Hlt. split_and!.
    + split; [|lia]. intros _. exists s. split; [|done].
      by eapply list_elem_of_lookup_2.
    + intros i' Hi' _. apply Nat2Z.inj in Hi'. subst i'.
      exists s. split_and!; try done.
      intros j s' Hj Hs'. by eapply Hfirst.
    + lia.
  - apply list_find_None in Hfind. split_and!.
    + split; [lia|]. intros (s & Hs & Hk).
      rewrite Forall_forall in Hfind. by destruct (Hfind s Hs).
    + intros i Hi Hlt. lia.
    + done.
Qed.

Lemma sort_position_finds_first_title_witness :
  (length (Model.section_info Sample.sample_parsed) ≤ 999)%nat
  ∧ @Page.sort_position ascii_host Sample.sample_parsed "experience" = 2
  ∧ @Page.getSubsectionTitles ascii_host (Some Sample.sample_parsed)
      "experience"
    = ["Acme"; "Globex"].
Proof.
  assert (Hlen : (length (Model.section_info Sample.sample_parsed) ≤ 999)%nat).
  { vm_compute. lia. }
  split; [exact Hlen|]. split; [reflexivity|].
  destruct (@sort_position_finds_first_title ascii_host Sample.sample_parsed
              "experience" Hlen) as (_ & Hpos & _).
  destruct (Hpos 2%nat eq_refl) as (s & Hs & _ & Htitles & _); [lia|].
  rewrite Htitles. by injection Hs as <-.
Defined.

(** X9. A parse that does not come back as a success with data changes
    neither the parsed data, nor the metadata, nor the selections: it only
    records an error; and in every case the page is no longer parsing
    afterwards. *)
Theorem failed_parse_keeps_selections
    (result : Js.Completion (Api.ApiResponse Page.ParseResult))
    (st : Page.PageState) :
  let st' := Page.parseLatexSections result st in
  Page.st_isParsing st' = false
  ∧ ((∀ r d, result = Js.Normal r → Api.success r = true →
             Api.data r = Some d → False) →
     Page.st_parsedData st' = Page.st_parsedData st
     ∧ Page.st_metadata st' = Page.st_metadata st
     ∧ Page.st_selections st' = Page.st_selections st
     ∧ is_Some (Page.st_error st')).
Proof.
  intros st'. subst st'. unfold Page.parseLatexSections. split; [done|].
  intros Hfail. destruct result as [r|t]; simpl; [|by eauto].
  destruct (Api.success r) eqn:Hok; simpl; [|by eauto].
  destruct (Api.data r) as [d|] eqn:Hd; simpl; [|by eauto].
  by destruct (Hfail r d).
Qed.

Lemma failed_parse_keeps_selections_witness :
  Page.st_selections
    (Page.parseLatexSections
       (Js.Normal (Api.failure (Api.error_object "network_error" "down")))
       Sample.sample_page)
  = Page.st_selections Sample.sample_page
  ∧ Page.st_error
      (Page.parseLatexSections
         (Js.Normal (Api.failure (Api.error_object "network_error" "down")))
         Sample.sample_page)
    = Some "down".
Proof.
  destruct (failed_parse_keeps_selections
              (Js.Normal (Api.failure (Api.error_object "network_error" "down")))
              Sample.sample_page) as [_ Hkeep].
  destruct Hkeep as (_ & _ & Hsel & _).
  { intros r d [= <-]. discriminate. }
  split; [exact Hsel|reflexivity].
Defined.


(* ===================================================================== *)
(** * More about the API wrappers *)
(* ===================================================================== *)

Module ConfigFacts.
Import Js Config.

Lemma assoc_set_eq name v fields : assoc name (assoc_set name v fields) = Some v.
Proof.
  induction fields as [|[k w] rest IH]; simpl; [by rewrite decide_True|].
  case_decide as Hk; simpl.
  - by rewrite decide_True.
  - by rewrite decide_False.
Qed.

Lemma assoc_set_ne name name' v fields :
  name' ≠ name → assoc name' (assoc_set name v fields) = assoc name' fields.
Proof.
  intros Hne. induction fields as [|[k w] rest IH]; simpl.
  - by rewrite decide_False.
  - case_decide as Hk; simpl.
    + subst k. by rewrite !decide_False.
    + case_decide; [done|]. exact IH.
Qed.

Lemma truthy_not_null v : truthy v = true → ∃ j, v = Some j ∧ j ≠ JNull.
Proof. destruct v as [[]|]; simpl; try done; by eexists. Qed.

Lemma member_not_null name j :
  j ≠ JNull → ∃ o, member name j = Normal o.
Proof. destruct j; simpl; try done; by eexists. Qed.

End ConfigFacts.

(** X11. In what [apiRequest] resolves to, exactly one of [data] and
    [error] is set: data and no error when [success] is true, an error and
    no data when it is false. For a response that is not ok and whose body
    is a JSON object, the error is the [error] member of the body when
    that is truthy, and otherwise an [api_error] naming the status. *)
Theorem api_response_has_data_or_error `{Api.Network}
    (endpoint : string) (options : Api.RequestInit) (timeout : Z) :
  ∃ r, Api.apiRequest endpoint options timeout = Js.Normal r
    ∧ (Api.success r = true → is_Some (Api.data r) ∧ Api.error r = None)
    ∧ (Api.success r = false → Api.data r = None ∧ is_Some (Api.error r))
    ∧ (∀ response fields,
         Api.fetch (Api.API_BASE_URL +:+ endpoint) (Api.request_init options)
           timeout = Js.Normal response →
         Api.ok response = false →
         Api.json response = Js.Normal (Js.JObject fields) →
         Api.success r = false
         ∧ Api.error r
           = Some (if Js.truthy (Js.assoc "error" fields)
                   then default Js.JNull (Js.assoc "error" fields)
                   else Api.error_object "api_error"
                          ("HTTP " +:+ pretty (Api.status response) +:+ ": "
                             +:+ Api.statusText response))).
Proof.
  unfold Api.apiRequest, Api.request_body.
  destruct (Api.fetch _ _ _) as [response|[name msg|]] eqn:Hf; simpl;
    [destruct (Api.json response) as [v|[name msg|]] eqn:Hj; simpl;
       [destruct (Api.ok response) eqn:Hok; simpl;
          [|destruct (Js.member "error" v) as [err|t] eqn:Hm; simpl]|..]|..];
    try case_decide;
    (eexists; split; [reflexivity|]);
    rewrite ?ApiFacts.on_exception_fails; simpl;
    split_and!; intros;
    repeat match goal with
    | H : Js.Normal _ = Js.Normal _ |- _ => injection H as H; subst
    | H : Js.Normal _ = Js.Throw _ |- _ => discriminate H
    | H : Js.Throw _ = Js.Normal _ |- _ => discriminate H
    end;
    try congruence; try done; try (by eauto).
  - assert (v = Js.JObject fields) as -> by congruence.
    simpl in Hm. by injection Hm as <-.
  - destruct t as [name msg|]; simpl; [case_decide|]; by eauto.
  - assert (v = Js.JObject fields) as -> by congruence. discriminate.
Qed.

Lemma api_response_has_data_or_error_witness :
  ∃ r, @Api.compileLatex Sample.net_silent "x" = Js.Normal r
    ∧ Api.success r = false
    ∧ Api.data r = None
    ∧ is_Some (Api.error r).
Proof.
  destruct (@api_response_has_data_or_error Sample.net_silent
              "/api/compile-latex"
              (Api.post (Js.JObject [("latexCode", Js.JString "x")]))
              Api.REQUEST_TIMEOUT) as (r & Hr & _ & Hfail & _).
  exists r. split; [exact Hr|].
  assert (Hs : Api.success r = false).
  { vm_compute in Hr. by injection Hr as <-. }
  split; [exact Hs|]. exact (Hfail Hs).
Defined.

(** X12. [saveConfig] and [loadConfig] always resolve and never throw.
    [saveConfig] hands back the parsed body as it is, whatever the HTTP
    status of the response, and the fixed [network_error] object when the
    request fails, when the body is not JSON, or when the body is
    [null]. *)
Theorem save_config_returns_body_or_network_error `{Config.PlainNetwork}
    (config : Config.UserConfig) :
  (∃ r, Config.saveConfig config = Js.Normal r
     ∧ match Config.fetch_plain (Api.API_BASE_URL +:+ "/api/save-config")
               {| Api.method := Some "POST";
                  Api.headers := Config.json_headers;
                  Api.body := Some (Config.save_payload config) |} with
       | Js.Normal response =>
           match Api.json response with
           | Js.Normal Js.JNull => r = Config.network_failure
           | Js.Normal v => r = v
           | Js.Throw _ => r = Config.network_failure
           end
       | Js.Throw _ => r = Config.network_failure
       end)
  ∧ (∃ r, Config.loadConfig = Js.Normal r).
Proof.
  split.
  - unfold Config.saveConfig.
    destruct (Config.fetch_plain _ _) as [response|t]; simpl; [|by eauto].
    destruct (Api.json response) as [v|t]; simpl; [|by eauto].
    destruct v; simpl; by eauto.
  - unfold Config.loadConfig, Js.try_catch.
    match goal with |- ∃ r, match ?c with _ => _ end = _ =>
      destruct c; by eauto end.
Qed.

(** X13. When the body of the load response is an object with a truthy
    [success] and a truthy [config], [loadConfig] hands back that object
    with [config] replaced: the new [config] holds under
    [selectedProvider], [selectedModel] and [apiKey] what the old one held
    under [provider], [model] and [apiKey], and every other member of the
    body is as it was. In particular a configuration sent by [saveConfig]
    and echoed by the server comes back as the configuration that was
    saved. *)
Theorem load_config_renames_members `{Config.PlainNetwork}
    (response : Api.Response) (fields : list (string * Js.Json))
    (config : Js.Json) :
  Config.fetch_plain (Api.API_BASE_URL +:+ "/api/load-config")
    {| Api.method := Some "GET"; Api.headers := Config.json_headers;
       Api.body := None |} = Js.Normal response →
  Api.json response = Js.Normal (Js.JObject fields) →
  Js.truthy (Js.assoc "success" fields) = true →
  Js.assoc "config" fields = Some config →
  Js.truthy (Some config) = true →
  ∃ fields' config',
    Config.loadConfig = Js.Normal (Js.JObject fields')
    ∧ Js.assoc "config" fields' = Some config'
    ∧ Js.member "selectedProvider" config' = Js.member "provider" config
    ∧ Js.member "selectedModel" config' = Js.member "model" config
    ∧ Js.member "apiKey" config' = Js.member "apiKey" config
    ∧ (∀ name, name ≠ "config" →
         Js.assoc name fields' = Js.assoc name fields)
    ∧ (∀ saved, config = Config.save_payload saved →
         config' = Config.frontend_config saved).
Proof.
  intros Hf Hj Hs Hc Ht. unfold Config.loadConfig. rewrite Hf. simpl.
  rewrite Hj. simpl. rewrite Hs. simpl. rewrite Hc, Ht. simpl.
  destruct (ConfigFacts.truthy_not_null _ Ht) as (j & [= <-] & Hnull).
  destruct (ConfigFacts.member_not_null "provider" config Hnull) as [pv Hpv].
  destruct (ConfigFacts.member_not_null "model" config Hnull) as [mv Hmv].
  destruct (ConfigFacts.member_not_null "apiKey" config Hnull) as [kv Hkv].
  rewrite Hpv, Hmv, Hkv. simpl.
  eexists _, _. split; [reflexivity|].
  split; [apply ConfigFacts.assoc_set_eq|]. split_and!.
  - by destruct pv, mv, kv.
  - by destruct pv, mv, kv.
  - by destruct pv, mv, kv.
  - intros name Hne. by apply ConfigFacts.assoc_set_ne.
  - intros saved ->. simpl in Hpv, Hmv, Hkv.
    injection Hpv as <-. injection Hmv as <-. by injection Hkv as <-.
Qed.

(** X14. [uploadFile] always resolves to a response and never throws. The
    response has [success = true], with the parsed body as its data,
    exactly when the HTTP response is ok and its body parses as JSON. An
    aborted upload gives [timeout_error], any other failure of the fetch
    or of reading the body gives [network_error], and a response that is
    not ok whose JSON object body has no truthy [error] gives
    [upload_error]. *)
Theorem upload_always_resolves `{Upload.FormNetwork} (file : Upload.File) :
  let fetched :=
    Upload.fetch_form (Api.API_BASE_URL +:+ "/api/upload") file
      Api.REQUEST_TIMEOUT in
  ∃ r, Upload.uploadFile file = Js.Normal r
    ∧ (Api.success r = true ↔
         ∃ response v, fetched = Js.Normal response
           ∧ Api.ok response = true
           ∧ Api.json response = Js.Normal v
           ∧ Api.data r = Some v)
    ∧ (∀ msg, fetched = Js.Throw (Js.ThrownError "AbortError" msg) →
         Api.success r = false ∧ Api.error_type r = Some "timeout_error")
    ∧ (∀ name msg, name ≠ "AbortError" →
         fetched = Js.Throw (Js.ThrownError name msg) →
         Api.success r = false ∧ Api.error_type r = Some "network_error")
    ∧ (∀ response name msg, name ≠ "AbortError" →
         fetched = Js.Normal response →
         Api.json response = Js.Throw (Js.ThrownError name msg) →
         Api.success r = false ∧ Api.error_type r = Some "network_error")
    ∧ (∀ response fields,
         fetched = Js.Normal response →
         Api.ok response = false →
         Api.json response = Js.Normal (Js.JObject fields) →
         Js.truthy (Js.assoc "error" fields) = false →
         Api.success r = false ∧ Api.error_type r = Some "upload_error").
Proof.
  intros fetched. unfold Upload.uploadFile. fold fetched.
  assert (Hfail : ∀ t, Api.success (Upload.on_upload_exception t) = false).
  { intros [name msg|]; simpl; [case_decide|]; done. }
  destruct fetched as [response|[name msg|]] eqn:Hf; simpl;
    [destruct (Api.json response) as [v|[name msg|]] eqn:Hj; simpl;
       [destruct (Api.ok response) eqn:Hok; simpl;
          [|destruct (Js.member "error" v) as [err|t] eqn:Hm; simpl]|..]|..];
    try case_decide;
    (eexists; split; [reflexivity|]);
    rewrite ?Hfail; simpl;
    split_and!; ApiFacts.settle.
  - exists response, v. by rewrite Hj.
  - assert (v = Js.JObject fields) as -> by congruence.
    simpl in Hm. injection Hm as <-.
    match goal with Ht : Js.truthy _ = false |- _ => by rewrite Ht end.
  - assert (v = Js.JObject fields) as -> by congruence. discriminate.
Qed.

(* ===================================================================== *)
(** * The preloader: theorems *)
(* ===================================================================== *)

Module PreloaderFacts.
Import Js Preloader.

Lemma fold_previews_lookup (ts : list Template) (m : gmap string string) k :
  foldl (λ m template,
           <[id template := getTemplatePreviewUrl (id template)]> m) m ts !! k
  = if decide (k ∈ id <$> ts) then Some (getTemplatePreviewUrl k) else m !! k.
Proof.
  induction ts as [|t ts IH] in m |- *; cbn [foldl].
  - rewrite fmap_nil. case_decide as Hin; [by apply elem_of_nil in Hin|done].
  - rewrite IH, fmap_cons. destruct (decide (k ∈ id <$> ts)) as [Hin|Hnot].
    + rewrite decide_True; [done|]. by right.
    + destruct (decide (k = id t)) as [->|Hne].
      * rewrite lookup_insert_eq. rewrite decide_True; [done|]. by left.
      * rewrite lookup_insert_ne by done. rewrite decide_False; [done|].
        rewrite not_elem_of_cons. done.
Qed.

Lemma preview_url_not_empty k : getTemplatePreviewUrl k ≠ EmptyString.
Proof. unfold getTemplatePreviewUrl. by vm_compute. Qed.

Section WithServer.
Context `{InitServer}.

Ltac unfold_calls :=
  unfold perform, waitForPreload, waitForCriticalData, preloadAllData,
    loadCriticalData, critical_try, loadSecondaryData, with_data.

Ltac close_consistent :=
  split;
  [constructor; simpl; split_and?; try done; try (by eexists)
  |simpl; try done;
   try (eexists; split; [done|]; intros k;
        rewrite fold_previews_lookup; try rewrite lookup_empty; done)].

(** Every call leaves the module state consistent. *)
Lemma perform_consistent l c :
  consistent l → previews_ready l →
  consistent (perform l c).1 ∧ previews_ready (perform l c).1.
Proof.
  intros [H1 H2 H3] Hp. unfold previews_ready in *.
  destruct l as [[pv tp prev pdfs loaded loading err] pp cp rq].
  simpl in *.
  destruct cp as [[[]|tc]|], pp as [[[]|tpp]|]; simpl in *;
    destruct_and?; simplify_eq/=;
    repeat match goal with
    | H : is_Some ?x |- _ => is_var x; destruct H as [? ->]
    | H : is_Some None |- _ => by destruct H
    end;
    destruct c; unfold_calls; simpl;
    repeat case_match; simplify_eq/=;
    close_consistent.
Qed.

(** What a call completes with is what the critical promise holds; after
    a failure nothing is requested or changed any more; and a fulfilled
    [preloadAllData] has loaded everything. *)
Lemma perform_outcome l c :
  consistent l →
  criticalDataPromise (perform l c).1
  = Some match (perform l c).2 with
         | Normal _ => Normal ()
         | Throw t => Throw t
         end
  ∧ (∀ t, criticalDataPromise l = Some (Throw t) →
       (perform l c).2 = Throw t
       ∧ preloadedData (perform l c).1 = preloadedData l
       ∧ requests (perform l c).1 = requests l)
  ∧ (c = CallPreloadAll → ∀ u, (perform l c).2 = Normal u →
       isLoaded (preloadedData (perform l c).1) = true).
Proof.
  intros [H1 H2 H3].
  destruct l as [[pv tp prev pdfs loaded loading err] pp cp rq].
  simpl in *.
  destruct cp as [[[]|tc]|], pp as [[[]|tpp]|]; simpl in *;
    destruct_and?; simplify_eq/=;
    repeat match goal with
    | H : is_Some ?x |- _ => is_var x; destruct H as [? ->]
    | H : is_Some None |- _ => by destruct H
    end;
    destruct c; unfold_calls; simpl;
    repeat case_match; simplify_eq/=;
    split_and!; try done; intros; simplify_eq/=; done.
Qed.

Lemma initial_consistent : consistent initial_loader ∧ previews_ready initial_loader.
Proof. split; [by constructor|done]. Qed.

Lemma run_calls_consistent cs :
  consistent (run_calls initial_loader cs)
  ∧ previews_ready (run_calls initial_loader cs).
Proof.
  unfold run_calls.
  assert (Hgen : ∀ l, consistent l ∧ previews_ready l →
            consistent (foldl (λ l c, (perform l c).1) l cs)
            ∧ previews_ready (foldl (λ l c, (perform l c).1) l cs)).
  { induction cs as [|c cs IH]; intros l Hl; [done|]. simpl.
    apply IH. destruct Hl. by apply perform_consistent. }
  apply Hgen, initial_consistent.
Qed.
End WithServer.

End PreloaderFacts.

(** X15. However the preloader is called and whatever the server answers,
    the init data are requested at most once. After a failed load the
    error is recorded, the loading flag stays on and the critical data are
    not there; every further call rejects with the error of the first
    attempt, sends no request and leaves the cache as it is: there is no
    retry. *)
Theorem init_data_requested_at_most_once `{Preloader.InitServer}
    (cs : list Preloader.Call) :
  let l := Preloader.run_calls Preloader.initial_loader cs in
  (Preloader.requests l = [] ∨ Preloader.requests l = ["/api/init"])
  ∧ (∀ t, Preloader.criticalDataPromise l = Some (Js.Throw t) →
       is_Some (Preloader.getLoadingError l)
       ∧ Preloader.isDataLoading l = true
       ∧ Preloader.isCriticalDataLoaded l = false
       ∧ ∀ c, (Preloader.perform l c).2 = Js.Throw t
              ∧ Preloader.preloadedData (Preloader.perform l c).1
                = Preloader.preloadedData l
              ∧ Preloader.requests (Preloader.perform l c).1
                = Preloader.requests l).
Proof.
  intros l. destruct (PreloaderFacts.run_calls_consistent cs) as [Hc _].
  fold l in Hc. split.
  - destruct Hc as [H1 _ _].
    destruct (Preloader.criticalDataPromise l); by eauto.
  - intros t Ht. pose proof Hc as [_ H2 _]. rewrite Ht in H2.
    destruct H2 as (Herr & Hpv & Hload & _).
    unfold Preloader.getLoadingError, Preloader.isDataLoading,
      Preloader.isCriticalDataLoaded.
    rewrite Hpv. split_and!; try done.
    intros c. by apply (PreloaderFacts.perform_outcome l c Hc).
Qed.

Lemma init_data_requested_at_most_once_witness :
  Preloader.criticalDataPromise
    (@Preloader.run_calls MoreSamples.server_down Preloader.initial_loader
       [Preloader.CallWaitCritical])
  = Some (Js.Throw (Js.ThrownError "Error" "Failed to load init data: down"))
  ∧ (@Preloader.perform MoreSamples.server_down
       (@Preloader.run_calls MoreSamples.server_down Preloader.initial_loader
          [Preloader.CallWaitCritical]) Preloader.CallPreloadAll).2
    = Js.Throw (Js.ThrownError "Error" "Failed to load init data: down").
Proof.
  split; [reflexivity|].
  destruct (@init_data_requested_at_most_once MoreSamples.server_down
              [Preloader.CallWaitCritical]) as [_ Hfail].
  destruct (Hfail _ eq_refl) as (_ & _ & _ & Hcalls).
  exact (proj1 (Hcalls Preloader.CallPreloadAll)).
Defined.

(** X16. Whenever a call to the preloader fulfils, no loading error is
    recorded and the critical data are there: the error check that the
    application loader makes after a successful wait never finds one. A
    fulfilled [preloadAllData] moreover leaves everything marked as
    loaded and the loading flag off. *)
Theorem fulfilled_call_means_loaded `{Preloader.InitServer}
    (cs : list Preloader.Call) (c : Preloader.Call) :
  let l := Preloader.run_calls Preloader.initial_loader cs in
  ∀ u, (Preloader.perform l c).2 = Js.Normal u →
    Preloader.getLoadingError (Preloader.perform l c).1 = None
    ∧ Preloader.isCriticalDataLoaded (Preloader.perform l c).1 = true
    ∧ (c = Preloader.CallPreloadAll →
       Preloader.isLoaded (Preloader.preloadedData (Preloader.perform l c).1)
       = true
       ∧ Preloader.isDataLoading (Preloader.perform l c).1 = false).
Proof.
  intros l u Hu.
  destruct (PreloaderFacts.run_calls_consistent cs) as [Hc Hp].
  fold l in Hc, Hp.
  destruct (PreloaderFacts.perform_outcome l c Hc) as (Hcp & _ & Hall).
  destruct (PreloaderFacts.perform_consistent l c Hc Hp) as [[H1 H2 H3] _].
  rewrite Hu in Hcp. rewrite Hcp in H2. destruct H2 as (Herr & Hpv & Htp).
  unfold Preloader.getLoadingError, Preloader.isCriticalDataLoaded,
    Preloader.isDataLoading.
  split; [done|]. split.
  { by rewrite !bool_decide_eq_true_2. }
  intros ->. specialize (Hall eq_refl u Hu). split; [done|].
  destruct (Preloader.preloadPromise _) as [[]|]; cbv beta iota in H3.
  - by destruct H3 as (_ & ? & _).
  - congruence.
  - congruence.
Qed.

Lemma fulfilled_call_means_loaded_witness :
  (@Preloader.perform MoreSamples.server_up Preloader.initial_loader
     Preloader.CallPreloadAll).2 = Js.Normal ()
  ∧ Preloader.getLoadingError
      (@Preloader.perform MoreSamples.server_up Preloader.initial_loader
         Preloader.CallPreloadAll).1 = None.
Proof.
  split; [reflexivity|].
  exact (proj1 (@fulfilled_call_means_loaded MoreSamples.server_up []
                  Preloader.CallPreloadAll () eq_refl)).
Defined.

(** X17. Once everything is loaded, the preview URL of a template id is
    there exactly for the ids of the loaded templates, and it is the URL
    [getTemplatePreviewUrl] builds for the id; before that, no preview URL
    is there at all. *)
Theorem preview_urls_of_loaded_templates `{Preloader.InitServer}
    (cs : list Preloader.Call) :
  let l := Preloader.run_calls Preloader.initial_loader cs in
  (Preloader.isLoaded (Preloader.preloadedData l) = true →
     ∃ ts, Preloader.pd_templates (Preloader.preloadedData l) = Some ts
       ∧ ∀ k, Preloader.getPreloadedTemplatePreview l k
              = if decide (k ∈ Preloader.id <$> ts)
                then Some (Preloader.getTemplatePreviewUrl k) else None)
  ∧ (Preloader.isLoaded (Preloader.preloadedData l) = false →
     ∀ k, Preloader.getPreloadedTemplatePreview l k = None).
Proof.
  intros l. destruct (PreloaderFacts.run_calls_consistent cs) as [_ Hp].
  fold l in Hp. unfold Preloader.previews_ready in Hp.
  unfold Preloader.getPreloadedTemplatePreview. split; intros Hl;
    rewrite Hl in Hp.
  - destruct Hp as (ts & Hts & Hprev). exists ts. split; [done|].
    intros k. rewrite Hprev. case_decide; [|done].
    rewrite decide_False; [done|]. apply PreloaderFacts.preview_url_not_empty.
  - intros k. by rewrite Hp, lookup_empty.
Qed.

Lemma preview_urls_of_loaded_templates_witness :
  Preloader.isLoaded
    (Preloader.preloadedData
       (@Preloader.run_calls MoreSamples.server_up Preloader.initial_loader
          [Preloader.CallWaitCritical; Preloader.CallPreloadAll])) = true
  ∧ Preloader.getPreloadedTemplatePreview
      (@Preloader.run_calls MoreSamples.server_up Preloader.initial_loader
         [Preloader.CallWaitCritical; Preloader.CallPreloadAll]) "ATS"
    = Some "http://localhost:54782/api/templates/ATS/preview".
Proof.
  split; [reflexivity|].
  destruct (proj1 (@preview_urls_of_loaded_templates MoreSamples.server_up
                     [Preloader.CallWaitCritical; Preloader.CallPreloadAll])
              eq_refl) as (ts & Hts & Hprev).
  rewrite Hprev. injection Hts as <-. reflexivity.
Defined.

(* ===================================================================== *)
(** * The editor page: theorems *)
(* ===================================================================== *)

Module EditorFacts.
Import Js Editor.

Lemma truthy_text_Some o s : truthy_text o = Some s → o = Some s.
Proof.
  destruct o as [x|]; simpl; [|done]. case_decide; [done|]. by intros [= ->].
Qed.

Lemma init_raw_shown nav :
  rawLatexCode (init_editor nav) ≠ EmptyString → raw_shown (init_editor nav).
Proof.
  unfold init_editor, raw_shown.
  destruct (nav ≫= _) as [raw|]; simpl; [done|].
  destruct (nav ≫= _) as [code|]; simpl; done.
Qed.

(** ** The two parts of the toggle *)

Lemma toggle_raw_shown st :
  raw_shown st → raw_shown (handleToggleFormatting st).1.
Proof.
  unfold raw_shown, handleToggleFormatting. intros Hst.
  destruct (isShowingRaw st); [|done].
  destruct (truthy_text _); simpl; [done|]. auto.
Qed.

Lemma toggle_keeps st :
  rawLatexCode (handleToggleFormatting st).1 = rawLatexCode st
  ∧ processedLatexCode (handleToggleFormatting st).1 = processedLatexCode st.
Proof.
  unfold handleToggleFormatting.
  destruct (isShowingRaw st); [|done]. by destruct (truthy_text _).
Qed.

(** The toggle sends a request only for the text the text area holds. *)
Lemma toggle_request st code :
  (handleToggleFormatting st).2 = Some code →
  code = latexCode st ∧ isShowingRaw st = true.
Proof.
  unfold handleToggleFormatting.
  destruct (isShowingRaw st); [|done].
  destruct (truthy_text _); simpl; [done|]. by intros [= <-].
Qed.

Lemma toggle_to_raw st :
  isShowingRaw st = false →
  handleToggleFormatting st
  = ({| latexCode := rawLatexCode st; rawLatexCode := rawLatexCode st;
        processedLatexCode := processedLatexCode st; isShowingRaw := true;
        isPreprocessing := isPreprocessing st;
        compilationError := compilationError st |}, None).
Proof. unfold handleToggleFormatting. by intros ->. Qed.

Lemma resumed_raw_shown answer st :
  raw_shown st → raw_shown (handleToggleFormatting_resumed answer st).
Proof.
  unfold raw_shown, handleToggleFormatting_resumed. intros Hst.
  destruct answer as [result|t]; simpl; [|done].
  destruct (Api.success result); simpl; [|done].
  by destruct (Api.data result).
Qed.

Lemma resumed_keeps_raw answer st :
  rawLatexCode (handleToggleFormatting_resumed answer st) = rawLatexCode st.
Proof.
  unfold handleToggleFormatting_resumed.
  destruct answer as [result|t]; simpl; [|done].
  destruct (Api.success result); simpl; [|done].
  by destruct (Api.data result).
Qed.

(** An answer either fills the cache with its text and shows it, or
    leaves text, view and cache alone. *)
Lemma resumed_cases answer st :
  (∃ result d,
     answer = Normal result ∧ Api.success result = true
     ∧ Api.data result = Some d
     ∧ handleToggleFormatting_resumed answer st
       = {| latexCode := processedLatex d; rawLatexCode := rawLatexCode st;
            processedLatexCode := Some (processedLatex d);
            isShowingRaw := false; isPreprocessing := false;
            compilationError := compilationError st |})
  ∨ (latexCode (handleToggleFormatting_resumed answer st) = latexCode st
     ∧ isShowingRaw (handleToggleFormatting_resumed answer st)
       = isShowingRaw st
     ∧ processedLatexCode (handleToggleFormatting_resumed answer st)
       = processedLatexCode st).
Proof.
  unfold handleToggleFormatting_resumed.
  destruct answer as [result|t]; simpl; [|by right].
  destruct (Api.success result) eqn:Hok; simpl; [|by right].
  destruct (Api.data result) as [d|] eqn:Hd; simpl; [|by right].
  left. by exists result, d.
Qed.

Section WithPreprocessor.
Context `{Preprocessor}.

(** ** The raw view *)

Lemma step_raw_shown l ev :
  raw_shown (cells l) → raw_shown (cells (editor_step l ev)).
Proof.
  intros Hst. destruct ev as [v| |n|e]; simpl.
  - unfold raw_shown, handleEdit. by destruct (isShowingRaw (cells l)).
  - by apply toggle_raw_shown.
  - destruct (in_flight l !! n); simpl; [|done]. by apply resumed_raw_shown.
  - exact Hst.
Qed.

Lemma run_raw_shown l evs :
  raw_shown (cells l) → raw_shown (cells (editor_run l evs)).
Proof.
  unfold editor_run. induction evs as [|ev evs IH] in l |- *; simpl; [done|].
  intros Hst. by apply IH, step_raw_shown.
Qed.

(** Only an edit in the raw view changes the raw text. *)
Lemma step_keeps_raw l ev :
  (∀ v, ev ≠ Edited v) →
  rawLatexCode (cells (editor_step l ev)) = rawLatexCode (cells l).
Proof.
  intros Hev. destruct ev as [v| |n|e]; simpl.
  - by destruct (Hev v).
  - apply toggle_keeps.
  - destruct (in_flight l !! n); simpl; [|done]. apply resumed_keeps_raw.
  - done.
Qed.

Lemma answers_keep_raw l (ns : list nat) :
  rawLatexCode (cells (editor_run l (Answered <$> ns)))
  = rawLatexCode (cells l).
Proof.
  unfold editor_run. induction ns as [|n ns IH] in l |- *; [done|].
  rewrite fmap_cons. cbn [foldl]. rewrite IH.
  by apply step_keeps_raw.
Qed.

(** Edits made in the processed view touch the text area only. *)
Lemma edits_in_processed_view l (edits : list string) :
  isShowingRaw (cells l) = false →
  let l' := editor_run l (Edited <$> edits) in
  isShowingRaw (cells l') = false
  ∧ rawLatexCode (cells l') = rawLatexCode (cells l)
  ∧ processedLatexCode (cells l') = processedLatexCode (cells l)
  ∧ in_flight l' = in_flight l.
Proof.
  unfold editor_run. induction edits as [|v edits IH] in l |- *;
    [done|]. intros Hst. rewrite fmap_cons. cbn [foldl].
  assert (Hstep : isShowingRaw (cells (editor_step l (Edited v))) = false
                  ∧ rawLatexCode (cells (editor_step l (Edited v)))
                    = rawLatexCode (cells l)
                  ∧ processedLatexCode (cells (editor_step l (Edited v)))
                    = processedLatexCode (cells l)
                  ∧ in_flight (editor_step l (Edited v)) = in_flight l).
  { simpl. unfold handleEdit. by rewrite Hst. }
  destruct Hstep as (H1 & H2 & H3 & H4).
  destruct (IH (editor_step l (Edited v)) H1) as (H5 & H6 & H7 & H8).
  rewrite H5, H6, H7, H8. done.
Qed.

(** ** The cache *)

Lemma opened_settled nav :
  rawLatexCode (init_editor nav) ≠ EmptyString → settled nav (opened nav).
Proof.
  intros Hnav. split_and!.
  - by apply init_raw_shown.
  - constructor.
  - intros processed Hp. left. split; [done|].
    by apply truthy_text_Some.
Qed.

Lemma step_settled nav l ev :
  (∀ v, ev = Edited v → in_flight l = []) →
  settled nav l → settled nav (editor_step l ev).
Proof.
  intros Hquiet (Hraw & Hfly & Hcache).
  split; [by apply step_raw_shown|].
  destruct ev as [v| |n|e]; simpl.
  - rewrite (Hquiet v eq_refl). split; [constructor|].
    unfold handleEdit. destruct (isShowingRaw (cells l)); simpl; [|done].
    intros processed Hp. done.
  - destruct (toggle_keeps (cells l)) as [Hr Hp]. split.
    + rewrite Hr. apply Forall_app. split; [done|].
      destruct (handleToggleFormatting (cells l)).2 as [code|] eqn:Hreq;
        simpl; [|constructor].
      apply toggle_request in Hreq as [-> Hshow].
      constructor; [by apply Hraw|constructor].
    + unfold cache_coherent. rewrite Hr, Hp. exact Hcache.
  - destruct (in_flight l !! n) as [code|] eqn:Hn; simpl; [|done].
    rewrite resumed_keeps_raw. split; [by apply Forall_delete|].
    assert (Hcode : code = rawLatexCode (cells l)).
    { eapply Forall_forall in Hfly; [exact Hfly|].
      by eapply list_elem_of_lookup_2. }
    destruct (resumed_cases (preprocess_call code) (cells l))
      as [(result & [processed] & Hcall & Hok & Hd & ->)|(_ & _ & Hp)].
    + intros processed' Hp'. apply truthy_text_Some in Hp'. simpl in Hp'.
      injection Hp' as <-. simpl in Hd |- *. right. exists result. by rewrite <-Hcode.
    + unfold cache_coherent. rewrite Hp, resumed_keeps_raw. exact Hcache.
  - done.
Qed.

Lemma run_settled nav l evs :
  quiet l evs → settled nav l → settled nav (editor_run l evs).
Proof.
  unfold editor_run. induction evs as [|ev evs IH] in l |- *; simpl; [done|].
  intros [Hev Hrest] Hl. apply IH; [done|]. apply step_settled; [|done].
  by intros v ->.
Qed.
End WithPreprocessor.

End EditorFacts.

(** X18. On an editor page opened with LaTeX code, whatever edits, clicks
    on the toggle, answers to its requests and error reports follow, in
    any order, edits between a click and its answer included: while the
    raw view is shown, the text area holds the raw text. From the raw
    view, a click on the toggle, any answers, and, once the processed
    view is shown, a second click give the text back unchanged. Edits
    made in the processed view are dropped by the switch back to the raw
    view, which shows the raw text again, leaves the cached processed
    text as it was and sends no request. *)
Theorem raw_view_shows_raw_text `{Editor.Preprocessor}
    (nav : option Editor.NavState) (evs : list Editor.EditorEvent) :
  Editor.rawLatexCode (Editor.init_editor nav) ≠ EmptyString →
  let l := Editor.editor_run (Editor.opened nav) evs in
  let st := Editor.cells l in
  (Editor.isShowingRaw st = true →
     Editor.latexCode st = Editor.rawLatexCode st
     ∧ ∀ ns : list nat,
         let l1 :=
           Editor.editor_run (Editor.editor_step l Editor.ToggleFormatting)
             (Editor.Answered <$> ns) in
         Editor.isShowingRaw (Editor.cells l1) = false →
         let l2 := Editor.editor_step l1 Editor.ToggleFormatting in
         Editor.latexCode (Editor.cells l2) = Editor.latexCode st
         ∧ Editor.rawLatexCode (Editor.cells l2) = Editor.rawLatexCode st
         ∧ Editor.isShowingRaw (Editor.cells l2) = true)
  ∧ (Editor.isShowingRaw st = false →
     ∀ edits : list string,
       let l' :=
         Editor.editor_step
           (Editor.editor_run l (Editor.Edited <$> edits))
           Editor.ToggleFormatting in
       Editor.latexCode (Editor.cells l') = Editor.rawLatexCode st
       ∧ Editor.rawLatexCode (Editor.cells l') = Editor.rawLatexCode st
       ∧ Editor.isShowingRaw (Editor.cells l') = true
       ∧ Editor.processedLatexCode (Editor.cells l')
         = Editor.processedLatexCode st
       ∧ Editor.in_flight l' = Editor.in_flight l).
Proof.
  intros Hnav l st.
  assert (Hraw : Editor.raw_shown st).
  { by apply EditorFacts.run_raw_shown, EditorFacts.init_raw_shown. }
  split.
  - intros Hshow. split; [by apply Hraw|]. intros ns l1 Hsw l2.
    assert (Hkeep : Editor.rawLatexCode (Editor.cells l1)
                    = Editor.rawLatexCode st).
    { subst l1. rewrite EditorFacts.answers_keep_raw.
      by apply EditorFacts.step_keeps_raw. }
    subst l2. simpl. rewrite (EditorFacts.toggle_to_raw _ Hsw). simpl.
    rewrite Hkeep. split_and!; [|done..]. symmetry. by apply Hraw.
  - intros Hshow edits l'.
    destruct (EditorFacts.edits_in_processed_view l edits Hshow)
      as (H1 & H2 & H3 & H4).
    subst l'. simpl. rewrite (EditorFacts.toggle_to_raw _ H1). simpl.
    rewrite H2, H3, H4. split_and!; try done. apply app_nil_r.
Qed.

Lemma raw_view_shows_raw_text_witness :
  Editor.rawLatexCode (Editor.init_editor MoreSamples.opened_with_raw)
  ≠ EmptyString
  ∧ Editor.latexCode
      (Editor.cells
         (@Editor.editor_step MoreSamples.fixer
            (@Editor.editor_run MoreSamples.fixer
               (@Editor.editor_run MoreSamples.fixer
                  (Editor.opened MoreSamples.opened_with_raw)
                  [Editor.ToggleFormatting; Editor.Edited "typed meanwhile";
                   Editor.Answered 0%nat])
               (Editor.Edited <$> ["lost"; "also lost"]))
            Editor.ToggleFormatting))
    = "typed meanwhile".
Proof.
  assert (Hnav : Editor.rawLatexCode
                   (Editor.init_editor MoreSamples.opened_with_raw)
                 ≠ EmptyString) by (vm_compute; discriminate).
  split; [exact Hnav|].
  destruct (@raw_view_shows_raw_text MoreSamples.fixer
              MoreSamples.opened_with_raw
              [Editor.ToggleFormatting; Editor.Edited "typed meanwhile";
               Editor.Answered 0%nat] Hnav)
    as [_ Hproc].
  destruct (Hproc eq_refl ["lost"; "also lost"]) as (Htext & _).
  etransitivity; [exact Htext|reflexivity].
Defined.

(** X19. On an editor page opened with LaTeX code, as long as no edit
    arrives while a preprocessing request is under way, whatever edits,
    clicks, answers and error reports follow, a cached processed text is
    never stale: it is either the processed text the page was opened
    with, the raw text being the one it was opened with, or the text the
    server answered with for the very raw text the page now holds. An
    edit that does arrive between the click and a successful answer makes
    the cache stale: the page then holds the new raw text together with
    the answer for the old one, shows that answer, and, if the answer is
    not empty, Show Raw followed by Fix Formatting shows it again from
    the cache without sending a request. *)
Theorem processed_cache_stale_only_by_edit_while_pending
    `{Editor.Preprocessor}
    (nav : option Editor.NavState) (evs : list Editor.EditorEvent) :
  Editor.rawLatexCode (Editor.init_editor nav) ≠ EmptyString →
  let l := Editor.editor_run (Editor.opened nav) evs in
  (Editor.quiet (Editor.opened nav) evs →
   Editor.cache_coherent nav (Editor.cells l))
  ∧ (Editor.isShowingRaw (Editor.cells l) = true →
     Editor.truthy_text (Editor.processedLatexCode (Editor.cells l)) = None →
     Editor.in_flight l = [] →
     ∀ (v processed : string),
       Editor.answers (Editor.latexCode (Editor.cells l)) processed →
       let l' :=
         Editor.editor_run l
           [Editor.ToggleFormatting; Editor.Edited v; Editor.Answered 0%nat] in
       Editor.rawLatexCode (Editor.cells l') = v
       ∧ Editor.processedLatexCode (Editor.cells l') = Some processed
       ∧ Editor.latexCode (Editor.cells l') = processed
       ∧ Editor.isShowingRaw (Editor.cells l') = false
       ∧ Editor.in_flight l' = []
       ∧ (processed ≠ EmptyString →
          let l'' :=
            Editor.editor_run l'
              [Editor.ToggleFormatting; Editor.ToggleFormatting] in
          Editor.latexCode (Editor.cells l'') = processed
          ∧ Editor.rawLatexCode (Editor.cells l'') = v
          ∧ Editor.isShowingRaw (Editor.cells l'') = false
          ∧ Editor.in_flight l'' = [])).
Proof.
  intros Hnav l. split.
  - intros Hquiet.
    by apply (EditorFacts.run_settled nav (Editor.opened nav) evs Hquiet),
      EditorFacts.opened_settled.
  - intros Hshow Hcache Hfly v processed (result & Hcall & Hok & Hd) l'.
    assert (Hl' : l' = {| Editor.cells :=
                     {| Editor.latexCode := processed;
                        Editor.rawLatexCode := v;
                        Editor.processedLatexCode := Some processed;
                        Editor.isShowingRaw := false;
                        Editor.isPreprocessing := false;
                        Editor.compilationError := None |};
                   Editor.in_flight := [] |}).
    { subst l'. unfold Editor.editor_run. simpl.
      unfold Editor.handleToggleFormatting. rewrite Hshow, Hcache, Hfly.
      simpl. rewrite Hcall. unfold Editor.handleToggleFormatting_resumed.
      rewrite Hok, Hd. simpl. reflexivity. }
    rewrite Hl'. simpl. split_and!; try done.
    intros Hne. unfold Editor.editor_run, Editor.handleToggleFormatting.
    simpl. rewrite decide_False by done. simpl. done.
Qed.

Lemma processed_cache_stale_only_by_edit_while_pending_witness :
  Editor.rawLatexCode (Editor.init_editor MoreSamples.opened_with_raw)
  ≠ EmptyString
  ∧ @Editor.quiet MoreSamples.fixer
      (Editor.opened MoreSamples.opened_with_raw)
      [Editor.Edited "\section{A}"]
  ∧ @Editor.cache_coherent MoreSamples.fixer MoreSamples.opened_with_raw
      (Editor.cells
         (@Editor.editor_run MoreSamples.fixer
            (Editor.opened MoreSamples.opened_with_raw)
            [Editor.Edited "\section{A}"]))
  ∧ @Editor.answers MoreSamples.fixer "\section{A}" "% fixed \section{A}"
  ∧ Editor.rawLatexCode
      (Editor.cells
         (@Editor.editor_run MoreSamples.fixer
            (@Editor.editor_run MoreSamples.fixer
               (Editor.opened MoreSamples.opened_with_raw)
               [Editor.Edited "\section{A}"])
            [Editor.ToggleFormatting; Editor.Edited "\section{B}";
             Editor.Answered 0%nat]))
    = "\section{B}"
  ∧ Editor.processedLatexCode
      (Editor.cells
         (@Editor.editor_run MoreSamples.fixer
            (@Editor.editor_run MoreSamples.fixer
               (Editor.opened MoreSamples.opened_with_raw)
               [Editor.Edited "\section{A}"])
            [Editor.ToggleFormatting; Editor.Edited "\section{B}";
             Editor.Answered 0%nat]))
    = Some "% fixed \section{A}".
Proof.
  assert (Hnav : Editor.rawLatexCode
                   (Editor.init_editor MoreSamples.opened_with_raw)
                 ≠ EmptyString) by (vm_compute; discriminate).
  assert (Hquiet : @Editor.quiet MoreSamples.fixer
                     (Editor.opened MoreSamples.opened_with_raw)
                     [Editor.Edited "\section{A}"]).
  { split; [reflexivity|exact I]. }
  assert (Hanswer : @Editor.answers MoreSamples.fixer
                      "\section{A}" "% fixed \section{A}").
  { eexists. split; [reflexivity|]. split; reflexivity. }
  split; [exact Hnav|]. split; [exact Hquiet|].
  destruct (@processed_cache_stale_only_by_edit_while_pending
              MoreSamples.fixer MoreSamples.opened_with_raw
              [Editor.Edited "\section{A}"] Hnav)
    as [Hfresh Hstale].
  split; [exact (Hfresh Hquiet)|]. split; [exact Hanswer|].
  destruct (Hstale eq_refl eq_refl eq_refl "\section{B}"
              "% fixed \section{A}" Hanswer)
    as (Hrawtext & Hcached & _).
  split; [exact Hrawtext|exact Hcached].
Defined.


Lemma load_config_renames_members_witness :
  Js.truthy (Js.assoc "success" MoreSamples.echo_body) = true
  ∧ Js.assoc "config" MoreSamples.echo_body
    = Some (Config.save_payload MoreSamples.saved_config)
  ∧ ∃ fields',
      @Config.loadConfig MoreSamples.net_echo = Js.Normal (Js.JObject fields')
      ∧ Js.assoc "config" fields'
        = Some (Config.frontend_config MoreSamples.saved_config).
Proof.
  split; [reflexivity|]. split; [reflexivity|].
  destruct (@load_config_renames_members MoreSamples.net_echo
              {| Api.status := 200; Api.statusText := "OK";
                 Api.json := Js.Normal (Js.JObject MoreSamples.echo_body) |}
              MoreSamples.echo_body
              (Config.save_payload MoreSamples.saved_config)
              eq_refl eq_refl eq_refl eq_refl eq_refl)
    as (fields' & config' & Hload & Hconfig & _ & _ & _ & _ & Hsaved).
  exists fields'. split; [exact Hload|].
  rewrite Hconfig. f_equal. by apply Hsaved.
Defined.


Lemma upload_always_resolves_witness :
  ∃ r, @Upload.uploadFile MoreSamples.net_too_large MoreSamples.resume_file
       = Js.Normal r
    ∧ Api.success r = false
    ∧ Api.error_type r = Some "upload_error".
Proof.
  destruct (@upload_always_resolves MoreSamples.net_too_large
              MoreSamples.resume_file)
    as (r & Hr & _ & _ & _ & _ & Hrefused).
  exists r. split; [exact Hr|].
  exact (Hrefused _ [] eq_refl eq_refl eq_refl eq_refl).
Defined.
